(** * The serial/browser bridge of [app.py]

    A shallow embedding of the bridge half of [app.py]: the serial read
    loop, the simulated sensor loop and the three Socket.IO command
    handlers, followed by the properties of the bridge specification that
    were checked against them.

    Conventions.
    - Python [int] is [Z]; Python [str] is [string], read as a sequence of
      code points below 256; a [dict] with string keys is a [gmap string _].
    - A finite Python [float] is the rational it denotes; [Binary64] gives
      the IEEE-754 rounding that every float operation ends with.
    - A handler is a function to the list of effects it performs, in
      program order. [print] calls and [time.sleep] are not effects of the
      model, and an [emit] always returns.
    - Functions of the interpreter and its libraries that the source calls
      but does not define ([json.loads], [int] on a [str], the random
      generator, the serial port driver, the image model) are section
      variables; a reference implementation of each is given for running
      the model on concrete inputs. *)

From Stdlib Require Import Ascii String ZArith QArith Qround Qpower Qabs Lia Lqa.
From stdpp Require Import base strings gmap list pretty.

#[local] Set Warnings "-register-all".
#[local] Open Scope Z_scope.

(** ** Python values *)

Module Py.

(** A [float]: finite (the rational it is equal to), infinite, or NaN. *)
Inductive float : Type :=
| Finite (q : Q)
| Inf (negative : bool)
| NaN.

(** The values that cross the bridge: whatever [json.loads] can return
    and whatever a Socket.IO client can send. *)
Inductive value : Type :=
| VNone
| VBool (b : bool)
| VInt (n : Z)
| VFloat (f : float)
| VStr (s : string)
| VList (l : list value)
| VDict (m : gmap string value).

(** The exception classes the bridge can meet. *)
Inductive exn : Type :=
| JSONDecodeError
| AttributeError
| TypeError
| ValueError
| OverflowError
| RecursionError.

(** A computation that returns or raises. *)
Inductive result (A : Type) : Type :=
| Ok (a : A)
| Raise (e : exn).
Arguments Ok {A} a.
Arguments Raise {A} e.

Definition bind {A B} (r : result A) (k : A → result B) : result B :=
  match r with
  | Ok a => k a
  | Raise e => Raise e
  end.

(** [try: r  except Exception: d] *)
Definition try_except {A} (r : result A) (d : A) : A :=
  match r with
  | Ok a => a
  | Raise _ => d
  end.

(** The newline character and the one-character string ["\n"]. *)
Definition LF : string := String "010"%char EmptyString.

(** [str.isspace] on one code point below 256: TAB..CR, FS..US, space,
    NEL and the no-break space. *)
Definition isspace (c : ascii) : bool :=
  let n := Z.of_N (N_of_ascii c) in
  ((9 <=? n) && (n <=? 13)) || ((28 <=? n) && (n <=? 32))
  || (n =? 133) || (n =? 160).

Fixpoint lstrip (s : string) : string :=
  match s with
  | String c r => if isspace c then lstrip r else s
  | EmptyString => EmptyString
  end.

Fixpoint rstrip (s : string) : string :=
  match s with
  | String c r =>
      match rstrip r with
      | EmptyString => if isspace c then EmptyString else String c EmptyString
      | r' => String c r'
      end
  | EmptyString => EmptyString
  end.

(** [s.strip()] *)
Definition strip (s : string) : string := rstrip (lstrip s).

(** Truth value of an [int]: [if state] *)
Definition truth (n : Z) : bool := negb (n =? 0).

(** [int(x)] for a finite float: truncation toward zero. *)
Definition trunc (q : Q) : Z := Z.quot (Qnum q) (Zpos (Qden q)).

Section Int.
(** [int(s)] for a [str] [s]. *)
Variable int_of_str : string → result Z.

(** [int(v)] *)
Definition int (v : value) : result Z :=
  match v with
  | VBool b => Ok (Z.b2z b)
  | VInt n => Ok n
  | VFloat (Finite q) => Ok (trunc q)
  | VFloat (Inf _) => Raise OverflowError
  | VFloat NaN => Raise ValueError
  | VStr s => int_of_str s
  | VNone | VList _ | VDict _ => Raise TypeError
  end.
End Int.

(** [data.get(key, d)]: only a [dict] has the method. *)
Definition get (data : value) (key : string) (d : value) : result value :=
  match data with
  | VDict m => Ok (default d (m !! key))
  | _ => Raise AttributeError
  end.

(** [data.keys()] as a set: only a [dict] has the method. *)
Definition keys (data : value) : result (gset string) :=
  match data with
  | VDict m => Ok (dom m)
  | _ => Raise AttributeError
  end.

End Py.

Import Py.

(** ** Float arithmetic

    IEEE-754 binary64 with rounding to nearest, ties to even: 53
    significant bits, least exponent [-1074], overflow from [2^1024]. An
    operation computes the exact rational result and rounds it. The sign
    of a zero is not kept. *)

Module Binary64.
#[local] Open Scope Q_scope.

(** [floor (log2 x)] for [0 < x] *)
Definition ilog2 (x : Q) : Z :=
  let l := (Z.log2 (Qnum x) - Z.log2 (Zpos (Qden x)))%Z in
  if Qle_bool (2 ^ l) x then l else (l - 1)%Z.

(** The integer nearest to [x]; of two equally near, the even one. *)
Definition rne (x : Q) : Z :=
  let f := Qfloor x in
  match Qcompare (x - inject_Z f) (1 # 2) with
  | Lt => f
  | Gt => (f + 1)%Z
  | Eq => if Z.even f then f else (f + 1)%Z
  end.

(** The exponent of the last significant bit of the float nearest to
    [x], for [0 < x]. *)
Definition exponent (x : Q) : Z := Z.max (ilog2 x - 52) (-1074).

Definition round_pos (x : Q) : Q :=
  inject_Z (rne (x / 2 ^ exponent x)) * 2 ^ exponent x.

(** The nearest number of the format, overflow aside. *)
Definition round (x : Q) : Q :=
  match Qnum x with
  | Z0 => 0
  | Zpos _ => round_pos x
  | Zneg _ => - round_pos (- x)
  end.

Definition overflow : Q := 2 ^ 1024.

(** The float an exact result [x] is stored as. *)
Definition of_Q (x : Q) : float :=
  let r := round x in
  if Qle_bool overflow (Qabs r) then Inf (negb (Qle_bool 0 r))
  else Finite (Qred r).

Definition neg (x : float) : float :=
  match x with
  | Finite q => Finite (- q)
  | Inf s => Inf (negb s)
  | NaN => NaN
  end.

Definition add (x y : float) : float :=
  match x, y with
  | Finite p, Finite q => of_Q (p + q)
  | NaN, _ | _, NaN => NaN
  | Inf s, Inf t => if Bool.eqb s t then Inf s else NaN
  | Inf s, Finite _ | Finite _, Inf s => Inf s
  end.

Definition sub (x y : float) : float := add x (neg y).

Definition mul (x y : float) : float :=
  match x, y with
  | Finite p, Finite q => of_Q (p * q)
  | NaN, _ | _, NaN => NaN
  | Inf s, Inf t => Inf (xorb s t)
  | Inf s, Finite q | Finite q, Inf s =>
      if Qeq_bool q 0 then NaN else Inf (xorb s (negb (Qle_bool 0 q)))
  end.

(** [round(x, ndigits)]: the decimal with [ndigits] fractional digits
    nearest to the exact value of [x] (ties to the even digit), then the
    float nearest to that decimal. *)
Definition py_round (x : float) (ndigits : Z) : float :=
  match x with
  | Finite q => of_Q (inject_Z (rne (q * 10 ^ ndigits)) / 10 ^ ndigits)
  | _ => x
  end.

(** [x <= y] *)
Definition le (x y : float) : Prop :=
  match x, y with
  | NaN, _ | _, NaN => False
  | Inf true, _ | _, Inf false => True
  | Inf false, _ | _, Inf true => False
  | Finite p, Finite q => p <= q
  end.

(** The float a decimal literal with one fractional digit denotes. *)
Definition one_decimal (x : float) : Prop :=
  ∃ d : Z, x = of_Q (inject_Z d / 10).
End Binary64.

(** ** Effects of the bridge *)

(** How one [ser.write(data)] ends: it returns, or it raises an exception
    [e] whose [str(e)] is [msg]. *)
Inductive write_result : Type :=
| Written
| WriteRaises (msg : string).

(** An open port, as far as the handlers can tell: what a write of the
    given bytes does. The global [ser] is [None] or an open port. *)
Definition port : Type := string → write_result.

Inductive effect : Type :=
| SerWrite (data : string) (r : write_result)
    (** [ser.write(data)] was called and ended as [r] *)
| Reply (event : string) (payload : value)
    (** [emit(event, payload)]: to the client whose request is handled *)
| Broadcast (event : string) (payload : value).
    (** [socketio.emit(event, payload)]: to every connected client *)

(** ** Command lines *)

(** The three commands of the device protocol. The flag of [SetRelay] and
    [SetAuto] is the truth value of the handler's [state]. *)
Inductive CommandIntent : Type :=
| SetRelay (on : bool)
| SetAuto (on : bool)
| ClearManual.

(** The [cmd] of the three handlers:
    [f"RELAY:{1 if state else 0}\n"], [f"AUTO:{1 if state else 0}\n"] and
    ["MANUAL:0\n"]. *)
Definition encode (i : CommandIntent) : string :=
  match i with
  | SetRelay on => "RELAY:" +:+ (if on then "1" else "0") +:+ LF
  | SetAuto on => "AUTO:" +:+ (if on then "1" else "0") +:+ LF
  | ClearManual => "MANUAL:0" +:+ LF
  end.

(** ** Socket.IO handlers *)

Section Handlers.
Variable int_of_str : string → result Z.

(** [try: state = int(data.get('state', 0))
     except Exception: state = 0] *)
Definition coerce_state (data : value) : Z :=
  try_except (bind (get data "state" (VInt 0)) (int int_of_str)) 0.

Definition handle_toggle (ser : option port) (data : value) : list effect :=
  let state := coerce_state data in
  let cmd := encode (SetRelay (truth state)) in
  match ser with
  | Some s =>
      match s cmd with
      | Written =>
          [SerWrite cmd Written;
           Reply "relay_ack" (VDict {["sent" := VInt state]})]
      | WriteRaises msg =>
          [SerWrite cmd (WriteRaises msg);
           Reply "relay_ack" (VDict {["error" := VStr msg]})]
      end
  | None =>
      [Reply "relay_ack"
         (VDict (<["error" := VStr "serial not connected"]>
                 {["would_send" := VStr (strip cmd)]}))]
  end.

Definition handle_set_auto (ser : option port) (data : value) : list effect :=
  let state := coerce_state data in
  let cmd := encode (SetAuto (truth state)) in
  match ser with
  | Some s =>
      match s cmd with
      | Written =>
          [SerWrite cmd Written;
           Reply "auto_ack" (VDict {["sent" := VInt state]})]
      | WriteRaises msg =>
          [SerWrite cmd (WriteRaises msg);
           Reply "auto_ack" (VDict {["error" := VStr msg]})]
      end
  | None =>
      [Reply "auto_ack"
         (VDict (<["error" := VStr "serial not connected"]>
                 {["would_send" := VStr (strip cmd)]}))]
  end.

Definition handle_clear_manual (ser : option port) : list effect :=
  let cmd := encode ClearManual in
  match ser with
  | Some s =>
      match s cmd with
      | Written =>
          [SerWrite cmd Written;
           Reply "manual_cleared" (VDict {["ok" := VBool true]})]
      | WriteRaises msg =>
          [SerWrite cmd (WriteRaises msg);
           Reply "manual_cleared" (VDict {["error" := VStr msg]})]
      end
  | None =>
      [Reply "manual_cleared"
         (VDict (<["error" := VStr "serial not connected"]>
                 {["would_send" := VStr (strip cmd)]}))]
  end.

(** An inbound Socket.IO event with its payload. *)
Inductive request : Type :=
| toggle_relay (data : value)
| set_auto (data : value)
| clear_manual.

(** The [@socketio.on] routing. *)
Definition dispatch (ser : option port) (r : request) : list effect :=
  match r with
  | toggle_relay data => handle_toggle ser data
  | set_auto data => handle_set_auto ser data
  | clear_manual => handle_clear_manual ser
  end.

(** The command a request stands for. *)
Definition intent_of (r : request) : CommandIntent :=
  match r with
  | toggle_relay data => SetRelay (truth (coerce_state data))
  | set_auto data => SetAuto (truth (coerce_state data))
  | clear_manual => ClearManual
  end.

(** The event name every answer to a request carries. *)
Definition ack_event (r : request) : string :=
  match r with
  | toggle_relay _ => "relay_ack"
  | set_auto _ => "auto_ack"
  | clear_manual => "manual_cleared"
  end.
End Handlers.

(** ** Reference implementations of the library functions *)

(** [json.loads] on text whose code points are below 256. An integer
    of more than 4300 digits raises [ValueError], the interpreter's
    default limit from CPython 3.11 on. Not covered: a [\u] escape of a
    code point from 256 on is refused, since the string model cannot hold
    it, and nesting has no depth limit. *)
Module JsonRef.
Definition code (c : ascii) : Z := Z.of_N (N_of_ascii c).

Definition is_code (c : ascii) (n : Z) : bool := code c =? n.

(** white space between tokens: space, TAB, LF, CR *)
Definition is_ws (c : ascii) : bool :=
  is_code c 32 || is_code c 9 || is_code c 10 || is_code c 13.

Fixpoint skip_ws (s : string) : string :=
  match s with
  | String c r => if is_ws c then skip_ws r else s
  | EmptyString => s
  end.

Definition digit (c : ascii) : option Z :=
  let n := code c in
  if (48 <=? n) && (n <=? 57) then Some (n - 48) else None.

Definition hex (c : ascii) : option Z :=
  let n := code c in
  if (48 <=? n) && (n <=? 57) then Some (n - 48)
  else if (65 <=? n) && (n <=? 70) then Some (n - 55)
  else if (97 <=? n) && (n <=? 102) then Some (n - 87)
  else None.

(** the longest run of digits in front: its value, its length, the rest *)
Fixpoint digits (s : string) (acc count : Z) : Z * Z * string :=
  match s with
  | String c r =>
      match digit c with
      | Some d => digits r (10 * acc + d) (count + 1)
      | None => (acc, count, s)
      end
  | EmptyString => (acc, count, s)
  end.

Fixpoint strip_prefix (p s : string) : option string :=
  match p, s with
  | EmptyString, _ => Some s
  | String a p', String b s' => if Ascii.eqb a b then strip_prefix p' s' else None
  | _, EmptyString => None
  end.

(** [0|[1-9]\d*]: its value, its number of digits, the rest *)
Definition integer_part (s : string) : option (Z * Z * string) :=
  match s with
  | String c r =>
      if is_code c 48 then Some (0, 1, r)
      else let '(v, n, r') := digits s 0 0 in
           if 0 <? n then Some (v, n, r') else None
  | EmptyString => None
  end.

(** [sys.get_int_max_str_digits()], by default *)
Definition MAX_STR_DIGITS : Z := 4300.

(** [\.\d+] *)
Definition fraction_part (s : string) : option (Z * Z * string) :=
  match s with
  | String c r =>
      if is_code c 46 then
        let '(v, n, r') := digits r 0 0 in
        if 0 <? n then Some (v, n, r') else None
      else None
  | EmptyString => None
  end.

(** [[eE][-+]?\d+] *)
Definition exponent_part (s : string) : option (Z * string) :=
  match s with
  | String c r =>
      if is_code c 101 || is_code c 69 then
        let '(sign, r1) :=
          match r with
          | String d t => if is_code d 45 then (-1, t) else if is_code d 43 then (1, t) else (1, r)
          | EmptyString => (1, r)
          end in
        let '(v, n, r2) := digits r1 0 0 in
        if 0 <? n then Some (sign * v, r2) else None
      else None
  | EmptyString => None
  end.

(** a number: an [int] without fraction and exponent, else a [float];
    the conversion of an [int] with too many digits raises *)
Definition number (s : string) : result (value * string) :=
  let '(sign, s1) :=
    match s with
    | String c t => if is_code c 45 then (-1, t) else (1, s)
    | EmptyString => (1, s)
    end in
  match integer_part s1 with
  | None => Raise JSONDecodeError
  | Some (i, k, s2) =>
      let frac := fraction_part s2 in
      let s3 := from_option (λ x, x.2) s2 frac in
      let ex := exponent_part s3 in
      let s4 := from_option (λ x, x.2) s3 ex in
      match frac, ex with
      | None, None =>
          if MAX_STR_DIGITS <? k then Raise ValueError
          else Ok (VInt (sign * i), s2)
      | _, _ =>
          let '(f, n) := from_option (λ x, x.1) (0, 0) frac in
          let e := from_option (λ x, x.1) 0 ex in
          let m := inject_Z (sign * (i * 10 ^ n + f)) in
          Ok (VFloat (Binary64.of_Q (m * 10 ^ (e - n))%Q), s4)
      end
  end.

Definition chr (n : Z) : ascii := ascii_of_N (Z.to_N n).

(** the rest of a string literal after its opening quote *)
Fixpoint string_body (s : string) : option (string * string) :=
  match s with
  | EmptyString => None
  | String c r =>
      if is_code c 34 then Some (EmptyString, r)
      else if is_code c 92 then
        match r with
        | String e r1 =>
            let simple (x : ascii) :=
              from_option (λ p, Some (String x p.1, p.2)) None (string_body r1) in
            if is_code e 34 || is_code e 92 || is_code e 47 then simple e
            else if is_code e 98 then simple (chr 8)
            else if is_code e 102 then simple (chr 12)
            else if is_code e 110 then simple (chr 10)
            else if is_code e 114 then simple (chr 13)
            else if is_code e 116 then simple (chr 9)
            else if is_code e 117 then
              match r1 with
              | String h1 (String h2 (String h3 (String h4 r2))) =>
                  match hex h1, hex h2, hex h3, hex h4 with
                  | Some 0, Some 0, Some a, Some b =>
                      from_option (λ p, Some (String (chr (16 * a + b)) p.1, p.2))
                        None (string_body r2)
                  | _, _, _, _ => None
                  end
              | _ => None
              end
            else None
        | EmptyString => None
        end
      else if code c <? 32 then None
      else from_option (λ p, Some (String c p.1, p.2)) None (string_body r)
  end.

Definition literal (s : string) : result (value * string) :=
  match strip_prefix "null" s with
  | Some r => Ok (VNone, r)
  | None =>
  match strip_prefix "true" s with
  | Some r => Ok (VBool true, r)
  | None =>
  match strip_prefix "false" s with
  | Some r => Ok (VBool false, r)
  | None =>
  match strip_prefix "NaN" s with
  | Some r => Ok (VFloat NaN, r)
  | None =>
  match strip_prefix "Infinity" s with
  | Some r => Ok (VFloat (Inf false), r)
  | None =>
  match strip_prefix "-Infinity" s with
  | Some r => Ok (VFloat (Inf true), r)
  | None => number s
  end end end end end end.

(** One value at the front of [s]; [members] and [elements] read the
    rest of an object and of an array after the first token. A key that
    comes twice keeps its last value. What is not JSON raises
    [JSONDecodeError]. *)
Fixpoint value_at (fuel : nat) (s : string) : result (value * string) :=
  match fuel, s with
  | S fuel, String c r =>
      if is_code c 123 then
        match skip_ws r with
        | String d r' =>
            if is_code d 125 then Ok (VDict ∅, r') else members fuel (String d r') ∅
        | EmptyString => Raise JSONDecodeError
        end
      else if is_code c 91 then
        match skip_ws r with
        | String d r' =>
            if is_code d 93 then Ok (VList [], r') else elements fuel (String d r') []
        | EmptyString => Raise JSONDecodeError
        end
      else if is_code c 34 then
        from_option (λ p, Ok (VStr p.1, p.2)) (Raise JSONDecodeError)
          (string_body r)
      else literal s
  | _, _ => Raise JSONDecodeError
  end
with members (fuel : nat) (s : string) (acc : gmap string value)
    : result (value * string) :=
  match fuel, s with
  | S fuel, String c r =>
      if is_code c 34 then
        match string_body r with
        | Some (k, r1) =>
            match skip_ws r1 with
            | String d r2 =>
                if is_code d 58 then
                  match value_at fuel (skip_ws r2) with
                  | Ok (v, r3) =>
                      match skip_ws r3 with
                      | String e r4 =>
                          if is_code e 125 then Ok (VDict (<[k := v]> acc), r4)
                          else if is_code e 44 then members fuel (skip_ws r4) (<[k := v]> acc)
                          else Raise JSONDecodeError
                      | EmptyString => Raise JSONDecodeError
                      end
                  | Raise e => Raise e
                  end
                else Raise JSONDecodeError
            | EmptyString => Raise JSONDecodeError
            end
        | None => Raise JSONDecodeError
        end
      else Raise JSONDecodeError
  | _, _ => Raise JSONDecodeError
  end
with elements (fuel : nat) (s : string) (acc : list value)
    : result (value * string) :=
  match fuel with
  | S fuel =>
      match value_at fuel s with
      | Ok (v, r1) =>
          match skip_ws r1 with
          | String e r2 =>
              if is_code e 93 then Ok (VList (acc ++ [v]), r2)
              else if is_code e 44 then elements fuel (skip_ws r2) (acc ++ [v])
              else Raise JSONDecodeError
          | EmptyString => Raise JSONDecodeError
          end
      | Raise e => Raise e
      end
  | O => Raise JSONDecodeError
  end.

Definition loads (s : string) : result value :=
  match value_at (S (String.length s)) (skip_ws s) with
  | Ok (v, r) =>
      match skip_ws r with
      | EmptyString => Ok v
      | _ => Raise JSONDecodeError
      end
  | Raise e => Raise e
  end.

(** [s] with each apostrophe turned into a double quote, to write JSON
    text as a string constant. *)
Fixpoint quoted (s : string) : string :=
  match s with
  | String c r => String (if is_code c 39 then chr 34 else c) (quoted r)
  | EmptyString => EmptyString
  end.
End JsonRef.

(** [int(s)] for a [str] of code points below 256: white space around, a
    sign, decimal digits, single underscores between digits. The
    interpreter's limit on the number of digits is not covered. *)
Module IntRef.
Fixpoint grouped_digits (s : string) (acc : Z) (after_digit : bool) : option Z :=
  match s with
  | EmptyString => if after_digit then Some acc else None
  | String c r =>
      match JsonRef.digit c with
      | Some d => grouped_digits r (10 * acc + d) true
      | None =>
          if JsonRef.is_code c 95 && after_digit then grouped_digits r acc false
          else None
      end
  end.

Definition int_of_str (s : string) : result Z :=
  let t := strip s in
  let '(sign, u) :=
    match t with
    | String c r =>
        if JsonRef.is_code c 45 then (-1, r) else if JsonRef.is_code c 43 then (1, r) else (1, t)
    | EmptyString => (1, t)
    end in
  match grouped_digits u 0 false with
  | Some v => Ok (sign * v)
  | None => Raise ValueError
  end.
End IntRef.

(** ** The serial read loop *)

(** The key set a telemetry line must have. *)
Definition expected : gset string :=
  {["mq"; "soil"; "temp"; "hum"; "relay"]}.

(** What one turn of a background loop did: the effects it performed and,
    if an exception reached the loop's [except Exception], that
    exception (it is printed, the loop sleeps and goes on). *)
Record turn : Type := Turn {
  effects : list effect;
  caught : option exn
}.

(** A turn that does nothing: the read timed out or the line was blank. *)
Definition idle : turn := Turn [] None.

Section ReadLoop.
(** [json.loads] *)
Variable json_loads : string → result value.

(** [{'line': line}] *)
Definition opaque (line : string) : value :=
  VDict {["line" := VStr line]}.

(** The body of the inner [try]: parse, compare the key sets, pick the
    event. *)
Definition classify (line : string) : result effect :=
  bind (json_loads line) (λ data,
  bind (keys data) (λ ks,
    if bool_decide (expected ⊆ ks)
    then Ok (Broadcast "sensor_update" data)
    else Ok (Broadcast "serial_line" (opaque line)))).

(** The inner [try ... except json.JSONDecodeError]. *)
Definition decode (line : string) : result effect :=
  match classify line with
  | Raise JSONDecodeError => Ok (Broadcast "serial_line" (opaque line))
  | r => r
  end.

(** One turn of the [while True] of [read_serial_thread], on the text
    [raw] that [ser.readline().decode(...)] returned. *)
Definition read_serial_turn (raw : string) : turn :=
  match raw with
  | EmptyString => idle
  | _ =>
      let line := strip raw in
      match line with
      | EmptyString => idle
      | _ =>
          match decode line with
          | Ok e => Turn [e] None
          | Raise e => Turn [] (Some e)
          end
      end
  end.

(** The effects of the loop on a sequence of reads, in order. *)
Definition read_serial_thread (reads : list string) : list effect :=
  concat (map (λ raw, effects (read_serial_turn raw)) reads).
End ReadLoop.

(** ** The simulated sensor loop *)

Section Simulator.
(** The state of the random generator, [Random._randbelow(n)] and the
    53 random bits [k] of which [Random.random()] returns [k / 2^53]. *)
Variable rng : Type.
Variable randbelow : Z → rng → Z * rng.
Variable random_bits : rng → Z * rng.

(** [random.randint(a, b)], which is [a + _randbelow(b + 1 - a)] *)
Definition randint (a b : Z) (g : rng) : Z * rng :=
  let '(r, g) := randbelow (b + 1 - a) g in (a + r, g).

(** [random.random()] *)
Definition random (g : rng) : float * rng :=
  let '(k, g) := random_bits g in (Finite (k # 2 ^ 53), g).

(** [random.uniform(a, b)], which is [a + (b - a) * random()] *)
Definition uniform (a b : float) (g : rng) : float * rng :=
  let '(r, g) := random g in
  (Binary64.add a (Binary64.mul (Binary64.sub b a) r), g).

(** The [data] of one turn of [fake_sensor_thread]. *)
Definition fake_reading (g : rng) : gmap string value * rng :=
  let '(mq, g) := randint 300 700 g in
  let '(soil, g) := randint 20 80 g in
  let '(temp, g) := uniform (Finite 22) (Finite 30) g in
  let '(hum, g) := uniform (Finite 35) (Finite 70) g in
  (<["mq" := VInt mq]>
     (<["soil" := VInt soil]>
        (<["temp" := VFloat (Binary64.py_round temp 1)]>
           (<["hum" := VFloat (Binary64.py_round hum 1)]>
              {["relay" := VInt 0]}))), g).

(** The first [n] turns of the [while True] of [fake_sensor_thread]. *)
Fixpoint fake_sensor_thread (n : nat) (g : rng) : list effect :=
  match n with
  | O => []
  | S n =>
      let '(data, g) := fake_reading g in
      Broadcast "sensor_update" (VDict data) :: fake_sensor_thread n g
  end.
End Simulator.

(** A reference generator: a linear congruential one on 64 bits. *)
Module RngRef.
Definition next (g : Z) : Z :=
  (6364136223846793005 * g + 1442695040888963407) mod 2 ^ 64.

Definition randbelow (n : Z) (g : Z) : Z * Z := ((next g / 2 ^ 16) mod n, next g).

Definition random_bits (g : Z) : Z * Z := (next g / 2 ^ 11, next g).
End RngRef.

(** ** Observations on an effect list *)

(** The answers sent to the requesting client, in order. *)
Definition replies (l : list effect) : list (string * value) :=
  omap (λ e, match e with Reply ev p => Some (ev, p) | _ => None end) l.

(** The calls of [ser.write], in order, with how each ended. *)
Definition writes (l : list effect) : list (string * write_result) :=
  omap (λ e, match e with SerWrite d r => Some (d, r) | _ => None end) l.

(** The [{'error': ..., 'would_send': ...}] of a handler without a port. *)
Definition not_connected (would_send : string) : value :=
  VDict (<["error" := VStr "serial not connected"]>
         {["would_send" := VStr would_send]}).

(** A reading of the simulator with every field in its range. *)
Definition plausible (data : gmap string value) : Prop :=
  ∃ (mq soil : Z) (temp hum : float),
    data !! "mq" = Some (VInt mq) ∧ 300 ≤ mq ≤ 700 ∧
    data !! "soil" = Some (VInt soil) ∧ 20 ≤ soil ≤ 80 ∧
    data !! "temp" = Some (VFloat temp) ∧
      Binary64.le (Finite 22) temp ∧ Binary64.le temp (Finite 30) ∧
      Binary64.one_decimal temp ∧
    data !! "hum" = Some (VFloat hum) ∧
      Binary64.le (Finite 35) hum ∧ Binary64.le hum (Finite 70) ∧
      Binary64.one_decimal hum ∧
    data !! "relay" = Some (VInt 0) ∧
    dom data = expected.

(** The line of the specification's telemetry scenario, and what
    [json.loads] makes of it. *)
Definition scenario_line : string :=
  JsonRef.quoted "{'mq':450,'soil':55,'temp':26.3,'hum':48.1,'relay':1}".

Definition scenario_data : gmap string value :=
  <["mq" := VInt 450]>
    (<["soil" := VInt 55]>
       (<["temp" := VFloat (Binary64.of_Q (263 # 10))]>
          (<["hum" := VFloat (Binary64.of_Q (481 # 10))]>
             {["relay" := VInt 1]}))).

(** A line that is one integer of 4301 digits. *)
Definition overlong_integer_line : string :=
  string_of_list_ascii (repeat "7"%char 4301).

(** A telemetry line with a sixth key. *)
Definition uptime_line : string :=
  JsonRef.quoted "{'mq':1,'soil':2,'temp':3,'hum':4,'relay':0,'uptime':17}".

Definition uptime_data : gmap string value :=
  <["uptime" := VInt 17]>
    (<["mq" := VInt 1]>
       (<["soil" := VInt 2]>
          (<["temp" := VInt 3]>
             (<["hum" := VInt 4]> {["relay" := VInt 0]})))).

(** A port on which every write succeeds, and one on which every write
    raises. *)
Definition good_port : port := λ _, Written.
Definition bad_port : port := λ _, WriteRaises "write failed".

(** The payload [{'state': n}]. *)
Definition state_payload (n : Z) : value := VDict {["state" := VInt n]}.

(** ** Opening the serial port *)

(** The configuration of the file. *)
Module Config.
Definition SERIAL_PORT : string := "COM5".
Definition BAUDRATE : Z := 115200.
End Config.

(** An entry of [serial.tools.list_ports.comports()]. *)
Record ListPortInfo : Type := {
  device : string;
  description : string
}.

(** One call [serial.Serial(name, baud, timeout=1)] and whether it
    returned an open port. *)
Record attempt : Type := Attempt {
  name : string;
  baud : Z;
  opened : bool
}.

Section Connect.
(** The state of the machine's ports, the enumeration of the ports and
    the constructor [serial.Serial(port, baudrate, timeout=1)], which
    gives an open port or raises. *)
Variable world : Type.
Variable comports : world → list ListPortInfo.
Variable Serial : string → Z → world → option port * world.

(** The preferred port and the speed, [SERIAL_PORT] and [BAUDRATE]. *)
Variable SERIAL_PORT : string.
Variable BAUDRATE : Z.

(** Whether [import serial] succeeded, that is [serial is not None]. *)
Variable available : bool.

(** The world together with the log of the calls of [serial.Serial]. *)
Definition machine : Type := world * list attempt.

Definition list_serial_ports (m : machine) : list ListPortInfo :=
  if available then comports m.1 else [].

Definition try_open_port (p : string) (m : machine) : option port * machine :=
  if available then
    let '(s, w) := Serial p BAUDRATE m.1 in
    (s, (w, m.2 ++ [Attempt p BAUDRATE (bool_decide (is_Some s))]))
  else (None, m).

(** The [for p in comports()] of [init_serial_connection], entered with
    [ser] being [None]: it leaves with the first port that opens, or
    with the result of the last attempt. *)
Fixpoint scan (ports : list ListPortInfo) (m : machine) : option port * machine :=
  match ports with
  | [] => (None, m)
  | p :: rest =>
      if String.eqb (device p) SERIAL_PORT then scan rest m
      else
        match try_open_port (device p) m with
        | (Some s, m) => (Some s, m)
        | (None, m) => scan rest m
        end
  end.

(** [init_serial_connection()], from the global [ser] and the machine
    to the new [ser] and the machine. The enumeration it makes first is
    only printed; the one that counts is made after the attempt on the
    preferred port. *)
Definition init_serial_connection (ser : option port) (m : machine)
    : option port * machine :=
  if negb available then (ser, m)
  else
    let '(ser, m) :=
      match SERIAL_PORT with
      | EmptyString => (ser, m)
      | _ => try_open_port SERIAL_PORT m
      end in
    match ser with
    | None => scan (comports m.1) m
    | Some _ => (ser, m)
    end.

(** A refused and a successful call for a port, as logged. *)
Definition refused (p : string) : attempt := Attempt p BAUDRATE false.
Definition success (p : string) : attempt := Attempt p BAUDRATE true.

(** The ports the scan may try: the enumeration without the preferred
    port. *)
Definition candidates (ports : list ListPortInfo) : list string :=
  filter (λ d, d ≠ SERIAL_PORT) (device <$> ports).

(** The background thread that [start_background_threads] starts. *)
Inductive thread : Type :=
| ReadSerial (s : port)
| FakeSensor.

Definition start_background_threads (ser : option port) (m : machine)
    : thread * option port * machine :=
  let '(ser, m) := init_serial_connection ser m in
  match ser with
  | Some s => (ReadSerial s, ser, m)
  | None => (FakeSensor, ser, m)
  end.
End Connect.

(** A reference machine: the world is the list of the ports that open,
    in the order of the enumeration, and opening changes nothing. *)
Module PortsRef.
Definition comports (w : list string) : list ListPortInfo :=
  map (λ d, {| device := d; description := "USB Serial" |}) ("COM1" :: w).

Definition Serial (p : string) (b : Z) (w : list string)
    : option port * list string :=
  (if bool_decide (p ∈ w) then Some (λ _, Written) else None, w).
End PortsRef.

(** ** The image classifier *)

(** A call into a library that returns, or raises an exception [e]
    whose [str(e)] is [msg]. *)
Inductive outcome (A : Type) : Type :=
| Returns (a : A)
| Raises (msg : string).
Arguments Returns {A} a.
Arguments Raises {A} msg.

(** [numpy.ndarray.argmax] on a one-dimensional float array, and what
    the endpoint makes of the probabilities. *)
Module Numpy.
(** [x <= y] as the machine decides it: false when either is NaN. *)
Definition leb (x y : float) : bool :=
  match x, y with
  | NaN, _ | _, NaN => false
  | Inf true, _ | _, Inf false => true
  | Inf false, _ | _, Inf true => false
  | Finite p, Finite q => Qle_bool p q
  end.

Definition isnan (x : float) : bool :=
  match x with
  | NaN => true
  | _ => false
  end.

(** The loop of argmax from element [i] on, with the greatest element
    so far [mp] at index [ind]: a NaN is maximal and ends the loop. *)
Fixpoint argmax_loop (mp : float) (ind i : nat) (l : list float) : nat :=
  match l with
  | [] => ind
  | x :: rest =>
      if leb x mp then argmax_loop mp ind (S i) rest
      else if isnan x then i
      else argmax_loop x i (S i) rest
  end.

Definition argmax (probs : list float) : outcome nat :=
  match probs with
  | [] => Raises "attempt to get argmax of an empty sequence"
  | x :: rest => Returns (if isnan x then O else argmax_loop x O 1 rest)
  end.
End Numpy.

(** An uploaded file of [request.files]. *)
Record FileStorage : Type := {
  filename : option string;
  content : string
}.

(** What a Flask view returns: the JSON body and the status code. *)
Record response : Type := Response {
  body : gmap string value;
  status : Z
}.

Section Classifier.
(** The image processor, the model and a decoded image. *)
Variable processor : Type.
Variable model : Type.
Variable image : Type.

(** Whether the imports of [torch], [transformers] and [PIL] succeeded:
    the one [try] around them sets all four names to [None] when any
    fails. *)
Variable hf_installed : bool.

(** [torch.cuda.is_available()], the two [from_pretrained(HF_MODEL_ID)]
    and [hf_model.to(device)]. *)
Variable cuda_is_available : outcome bool.
Variable load_processor : outcome processor.
Variable load_model : outcome model.
Variable to_device : model → string → outcome unit.

(** [hf_model.config.id2label] *)
Variable id2label : model → gmap Z string.

(** [Image.open(io.BytesIO(f.read())).convert("RGB")] *)
Variable open_image : FileStorage → outcome image.

(** From the image to [probs]: the processor, the move to the device,
    the model and the softmax of its first row of logits. *)
Variable run_model : processor → model → option string → image → outcome (list float).

(** The globals [hf_processor], [hf_model] and [hf_device]. *)
Record hf_globals : Type := HF {
  hf_processor : option processor;
  hf_model : option model;
  hf_device : option string
}.

(** Their values when the module is loaded. *)
Definition hf_unset : hf_globals := HF None None None.

Definition load_hf_model (g : hf_globals) : hf_globals :=
  if negb hf_installed then g
  else
    match cuda_is_available with
    | Raises _ => hf_unset
    | Returns cuda =>
        let dev := if cuda then "cuda" else "cpu" in
        match load_processor with
        | Raises _ => hf_unset
        | Returns p =>
            match load_model with
            | Raises _ => hf_unset
            | Returns m =>
                match to_device m dev with
                | Raises _ => hf_unset
                | Returns _ => HF (Some p) (Some m) (Some dev)
                end
            end
        end
    end.

(** [jsonify({'error': msg}), code] *)
Definition error_response (msg : string) (code : Z) : response :=
  Response {["error" := VStr msg]} code.

(** The second [try] of [predict]: from the image to the answer. *)
Definition classify_image (p : processor) (m : model) (dev : option string)
    (img : image) : outcome response :=
  match run_model p m dev img with
  | Raises msg => Raises msg
  | Returns probs =>
      match Numpy.argmax probs with
      | Raises msg => Raises msg
      | Returns top_idx =>
          let top_conf := default NaN (probs !! top_idx) in
          let label :=
            default (pretty top_idx) (id2label m !! Z.of_nat top_idx) in
          Returns
            (Response
               (<["label" := VStr label]>
                  (<["confidence" := VFloat top_conf]>
                     {["all_probs" := VList (VFloat <$> probs)]}))
               200)
      end
  end.

(** [predict()], on the globals and [request.files]. *)
Definition predict (g : hf_globals) (files : gmap string FileStorage) : response :=
  match hf_model g, hf_processor g with
  | Some m, Some p =>
      match files !! "file" with
      | None => error_response "no file part" 400
      | Some f =>
          if bool_decide (filename f = Some "")
          then error_response "no selected file" 400
          else
            match open_image f with
            | Raises e => error_response ("invalid image: " +:+ e) 400
            | Returns img =>
                match classify_image p m (hf_device g) img with
                | Returns r => r
                | Raises e => error_response ("prediction error: " +:+ e) 500
                end
            end
      end
  | _, _ => error_response "HF model not loaded on server" 500
  end.
End Classifier.

(** A reference classifier: an image is its bytes, an empty upload is
    no image, and the model gives three fixed probabilities. *)
Module ClassifierRef.
Definition id2label (m : unit) : gmap Z string :=
  <[0 := "healthy"]> {[1 := "leaf rust"]}.

Definition open_image (f : FileStorage) : outcome string :=
  match content f with
  | EmptyString => Raises "cannot identify image file"
  | bytes => Returns bytes
  end.

Definition probs : list float :=
  [Finite (1 # 8); Finite (3 # 4); Finite (1 # 8)].

Definition run_model (p m : unit) (dev : option string) (img : string)
    : outcome (list float) :=
  Returns probs.

Definition loaded : hf_globals unit unit := HF unit unit (Some tt) (Some tt) (Some "cpu").

Definition upload : gmap string FileStorage :=
  {["file" := {| filename := Some "leaf.jpg"; content := "JFIF" |}]}.
End ClassifierRef.

(** * Properties *)

(** ** The command path *)

Section CommandFacts.
Variable int_of_str : string → result Z.

(** A command line is its trimmed text followed by the newline. *)
Lemma encode_strip i : strip (encode i) +:+ LF = encode i.
Proof. destruct i as [[] | [] |]; reflexivity. Qed.

Lemma strip_encode_no_newline i : strip (encode i) ≠ encode i.
Proof. destruct i as [[] | [] |]; discriminate. Qed.

(** What every handler does without a port. *)
Lemma dispatch_disconnected r :
  dispatch int_of_str None r =
    [Reply (ack_event r)
       (not_connected (strip (encode (intent_of int_of_str r))))].
Proof. destruct r; reflexivity. Qed.

(** What every handler does with a port, by the outcome of the write. *)
Lemma dispatch_connected (s : port) r :
  let cmd := encode (intent_of int_of_str r) in
  dispatch int_of_str (Some s) r =
    match s cmd with
    | Written =>
        [SerWrite cmd Written;
         Reply (ack_event r)
           match r with
           | toggle_relay data | set_auto data =>
               VDict {["sent" := VInt (coerce_state int_of_str data)]}
           | clear_manual => VDict {["ok" := VBool true]}
           end]
    | WriteRaises msg =>
        [SerWrite cmd (WriteRaises msg);
         Reply (ack_event r) (VDict {["error" := VStr msg]})]
    end.
Proof.
  destruct r; simpl;
    unfold handle_toggle, handle_set_auto, handle_clear_manual;
    destruct (s _); reflexivity.
Qed.

Lemma coerce_state_int m n :
  m !! "state" = Some (VInt n) → coerce_state int_of_str (VDict m) = n.
Proof. intros H. unfold coerce_state. simpl. rewrite H. reflexivity. Qed.

Lemma truth_spec n : truth n = bool_decide (n ≠ 0).
Proof.
  unfold truth. symmetry. destruct (Z.eqb_spec n 0) as [-> | H]; simpl.
  - reflexivity.
  - apply bool_decide_eq_true_2. exact H.
Qed.
End CommandFacts.

(** C4. Encoding is a total function of the intent with exactly these
    values: [SetRelay] gives ["RELAY:1\n"] or ["RELAY:0\n"], [SetAuto]
    gives ["AUTO:1\n"] or ["AUTO:0\n"], [ClearManual] gives
    ["MANUAL:0\n"]. *)
Theorem encode_table :
  encode (SetRelay true) = "RELAY:1" +:+ LF ∧
  encode (SetRelay false) = "RELAY:0" +:+ LF ∧
  encode (SetAuto true) = "AUTO:1" +:+ LF ∧
  encode (SetAuto false) = "AUTO:0" +:+ LF ∧
  encode ClearManual = "MANUAL:0" +:+ LF.
Proof. repeat split. Qed.

Section CommandClaims.
Variable int_of_str : string → result Z.

(** C2, amended. Without a port every request, whatever its payload, is
    answered by one reply on its own event and nothing is written; the
    reply carries the reason ["serial not connected"] and, as
    [would_send], the command line without its final newline. *)
Theorem disconnected_failure r :
  ∃ w : string,
    dispatch int_of_str None r = [Reply (ack_event r) (not_connected w)] ∧
    writes (dispatch int_of_str None r) = [] ∧
    w = strip (encode (intent_of int_of_str r)) ∧
    w +:+ LF = encode (intent_of int_of_str r).
Proof.
  exists (strip (encode (intent_of int_of_str r))).
  rewrite dispatch_disconnected. repeat split. apply encode_strip.
Qed.

(** C6, amended. Every reply that reports a failure carries a reason
    under [error]. Without a port the reason is ["serial not connected"]
    and the reply also carries, under [would_send], the trimmed command
    line; after a write that raised, the reason is the text of the
    exception and the reply has no [would_send]. *)
Theorem failure_reply ser r ev p :
  (ev, VDict p) ∈ replies (dispatch int_of_str ser r) →
  is_Some (p !! "error") →
  ∃ reason : string,
    ev = ack_event r ∧
    p !! "error" = Some (VStr reason) ∧
    match ser with
    | None =>
        reason = "serial not connected" ∧
        p !! "would_send" =
          Some (VStr (strip (encode (intent_of int_of_str r))))
    | Some s =>
        s (encode (intent_of int_of_str r)) = WriteRaises reason ∧
        p !! "would_send" = None
    end.
Proof.
  destruct ser as [s |].
  - rewrite dispatch_connected. cbv zeta.
    destruct (s _) as [| msg] eqn:Hw; simpl; intros Hin Herr.
    + apply list_elem_of_singleton in Hin.
      destruct r; inversion Hin; subst p; vm_compute in Herr;
        destruct Herr as [? Herr]; discriminate Herr.
    + apply list_elem_of_singleton in Hin. inversion Hin; subst.
      exists msg. repeat split.
  - rewrite dispatch_disconnected. simpl. intros Hin _.
    apply list_elem_of_singleton in Hin. inversion Hin; subst.
    exists "serial not connected". repeat split.
Qed.

(** C7, amended. With a port on which the write succeeds, a handler
    writes the encoded command line, once, and then acknowledges:
    [toggle_relay] and [set_auto] with the coerced integer state under
    [sent], which is the applied flag as 0 or 1 whenever that integer is
    0 or 1, and [clear_manual] with [ok: True]. *)
Theorem connected_ack (s : port) r :
  s (encode (intent_of int_of_str r)) = Written →
  match r with
  | toggle_relay data | set_auto data =>
      let state := coerce_state int_of_str data in
      dispatch int_of_str (Some s) r =
        [SerWrite (encode (intent_of int_of_str r)) Written;
         Reply (ack_event r) (VDict {["sent" := VInt state]})] ∧
      (0 ≤ state ≤ 1 → state = Z.b2z (truth state))
  | clear_manual =>
      dispatch int_of_str (Some s) r =
        [SerWrite (encode ClearManual) Written;
         Reply "manual_cleared" (VDict {["ok" := VBool true]})]
  end.
Proof.
  intros Hw. pose proof (dispatch_connected int_of_str s r) as H.
  cbv zeta in H. rewrite Hw in H.
  assert (Hbit : ∀ n, 0 ≤ n ≤ 1 → n = Z.b2z (truth n)).
  { intros n Hn. assert (n = 0 ∨ n = 1) as [-> | ->] by lia; reflexivity. }
  destruct r; cbv zeta; auto.
Qed.

(** C8, amended. The state of a [toggle_relay] or [set_auto] payload
    is first converted with [int], which truncates a float, and then
    switches on exactly when the integer is not 0; a missing state, a
    state that [int] refuses and a payload that is no [dict] count as
    0. Whatever the payload, the handler forms the command of that
    flag and answers in the usual way: without a port the failure with
    the trimmed command, with a port the write of the command and then
    the acknowledgement with the integer, or the failure with the text
    of the exception. *)
Theorem coerced_state_drives_handlers ser data :
  ∃ n : Z,
    match data with
    | VDict m =>
        match m !! "state" with
        | Some v =>
            match int int_of_str v with
            | Ok k => n = k
            | Raise _ => n = 0
            end
        | None => n = 0
        end
    | _ => n = 0
    end ∧
    let bit := if bool_decide (n ≠ 0) then "1" else "0" in
    dispatch int_of_str ser (toggle_relay data) =
      match ser with
      | Some s =>
          match s ("RELAY:" +:+ bit +:+ LF) with
          | Written =>
              [SerWrite ("RELAY:" +:+ bit +:+ LF) Written;
               Reply "relay_ack" (VDict {["sent" := VInt n]})]
          | WriteRaises msg =>
              [SerWrite ("RELAY:" +:+ bit +:+ LF) (WriteRaises msg);
               Reply "relay_ack" (VDict {["error" := VStr msg]})]
          end
      | None => [Reply "relay_ack" (not_connected ("RELAY:" +:+ bit))]
      end ∧
    dispatch int_of_str ser (set_auto data) =
      match ser with
      | Some s =>
          match s ("AUTO:" +:+ bit +:+ LF) with
          | Written =>
              [SerWrite ("AUTO:" +:+ bit +:+ LF) Written;
               Reply "auto_ack" (VDict {["sent" := VInt n]})]
          | WriteRaises msg =>
              [SerWrite ("AUTO:" +:+ bit +:+ LF) (WriteRaises msg);
               Reply "auto_ack" (VDict {["error" := VStr msg]})]
          end
      | None => [Reply "auto_ack" (not_connected ("AUTO:" +:+ bit))]
      end.
Proof.
  exists (coerce_state int_of_str data). split.
  - unfold coerce_state. destruct data; try reflexivity. simpl.
    destruct (m !! "state") as [v |]; simpl; [| reflexivity].
    destruct (int int_of_str v); reflexivity.
  - cbv zeta. rewrite <- truth_spec.
    destruct ser as [s |].
    + rewrite !dispatch_connected. cbv zeta. simpl.
      destruct (truth (coerce_state int_of_str data)); split; reflexivity.
    + rewrite !dispatch_disconnected. simpl.
      destruct (truth (coerce_state int_of_str data)); split; reflexivity.
Qed.

(** C10. With a port on which the write succeeds, the acknowledgement
    of [toggle_relay] and of [set_auto] carries the integer state as
    coerced, not the 0 or 1 that was written: for an integer state [n]
    other than 0 and 1 the device gets ["RELAY:1\n"] (or ["AUTO:1\n"])
    and the reply carries [sent = n]. *)
Theorem ack_echoes_coerced_state (s : port) m n :
  m !! "state" = Some (VInt n) → n ≠ 0 → n ≠ 1 →
  (s ("RELAY:1" +:+ LF) = Written →
     handle_toggle int_of_str (Some s) (VDict m) =
       [SerWrite ("RELAY:1" +:+ LF) Written;
        Reply "relay_ack" (VDict {["sent" := VInt n]})]) ∧
  (s ("AUTO:1" +:+ LF) = Written →
     handle_set_auto int_of_str (Some s) (VDict m) =
       [SerWrite ("AUTO:1" +:+ LF) Written;
        Reply "auto_ack" (VDict {["sent" := VInt n]})]) ∧
  VInt n ≠ VInt 1.
Proof.
  intros Hm H0 H1.
  assert (Ht : truth n = true).
  { unfold truth. destruct (Z.eqb_spec n 0); [contradiction | reflexivity]. }
  split; [| split].
  - intros Hw. unfold handle_toggle. cbv zeta.
    rewrite (coerce_state_int int_of_str m n Hm), Ht.
    change (encode (SetRelay true)) with ("RELAY:1" +:+ LF).
    rewrite Hw. reflexivity.
  - intros Hw. unfold handle_set_auto. cbv zeta.
    rewrite (coerce_state_int int_of_str m n Hm), Ht.
    change (encode (SetAuto true)) with ("AUTO:1" +:+ LF).
    rewrite Hw. reflexivity.
  - intros E. inversion E. contradiction.
Qed.
End CommandClaims.

(** *** The command path on concrete requests *)

(** Without a port, [toggle_relay {state: 1}] is not answered with the
    line ["RELAY:1\n"] that would be written: [would_send] is
    ["RELAY:1"]. *)
Lemma disconnected_would_send_is_trimmed :
  replies (dispatch IntRef.int_of_str None (toggle_relay (state_payload 1)))
    = [("relay_ack", not_connected "RELAY:1")] ∧
  encode (intent_of IntRef.int_of_str (toggle_relay (state_payload 1)))
    = "RELAY:1" +:+ LF ∧
  ¬ replies (dispatch IntRef.int_of_str None (toggle_relay (state_payload 1)))
    = [("relay_ack", not_connected ("RELAY:1" +:+ LF))].
Proof.
  split; [reflexivity | split; [reflexivity |]].
  intros H.
  assert (E : not_connected "RELAY:1" = not_connected ("RELAY:1" +:+ LF)).
  { change (replies _) with [("relay_ack", not_connected "RELAY:1")] in H.
    congruence. }
  apply (f_equal (λ v, match v with
                       | VDict m => m !! "would_send"
                       | _ => None
                       end)) in E.
  vm_compute in E. discriminate E.
Qed.

(** With a port whose write raises, the reply to [toggle_relay {state: 1}]
    reports the failure and has no [would_send]. *)
Lemma write_failure_lacks_would_send :
  ∃ p : gmap string value,
    replies (dispatch IntRef.int_of_str (Some bad_port)
               (toggle_relay (state_payload 1))) = [("relay_ack", VDict p)] ∧
    p !! "error" = Some (VStr "write failed") ∧
    p !! "would_send" = None.
Proof. eexists. repeat split. Qed.

Lemma failure_reply_witness :
  let p : gmap string value := {["error" := VStr "write failed"]} in
  let r := toggle_relay (state_payload 1) in
  ("relay_ack", VDict p)
    ∈ replies (dispatch IntRef.int_of_str (Some bad_port) r) ∧
  is_Some (p !! "error") ∧
  ∃ reason : string,
    "relay_ack" = ack_event r ∧
    p !! "error" = Some (VStr reason) ∧
    bad_port (encode (intent_of IntRef.int_of_str r)) = WriteRaises reason ∧
    p !! "would_send" = None.
Proof.
  intros p r.
  assert (H1 : ("relay_ack", VDict p)
                 ∈ replies (dispatch IntRef.int_of_str (Some bad_port) r)).
  { vm_compute. left. }
  assert (H2 : is_Some (p !! "error")).
  { exists (VStr "write failed"). reflexivity. }
  split; [exact H1 | split; [exact H2 |]].
  exact (failure_reply IntRef.int_of_str (Some bad_port) r "relay_ack" p H1 H2).
Defined.

(** With a port, [toggle_relay {state: 5}] switches the relay on, and the
    acknowledgement carries 5, not the applied flag 1. *)
Lemma ack_is_not_the_applied_flag :
  intent_of IntRef.int_of_str (toggle_relay (state_payload 5)) = SetRelay true ∧
  dispatch IntRef.int_of_str (Some good_port) (toggle_relay (state_payload 5))
    = [SerWrite ("RELAY:1" +:+ LF) Written;
       Reply "relay_ack" (VDict {["sent" := VInt 5]})] ∧
  VInt 5 ≠ VInt (Z.b2z true).
Proof. repeat split. discriminate. Qed.

(** The specification's scenario: [toggle_relay {state: 0}] with a port
    and a successful write is acknowledged with [sent: 0]. *)
Lemma connected_ack_witness :
  good_port (encode (intent_of IntRef.int_of_str (toggle_relay (state_payload 0))))
    = Written ∧
  dispatch IntRef.int_of_str (Some good_port) (toggle_relay (state_payload 0))
    = [SerWrite ("RELAY:0" +:+ LF) Written;
       Reply "relay_ack" (VDict {["sent" := VInt 0]})] ∧
  0 ≤ coerce_state IntRef.int_of_str (state_payload 0) ≤ 1 ∧
  coerce_state IntRef.int_of_str (state_payload 0)
    = Z.b2z (truth (coerce_state IntRef.int_of_str (state_payload 0))).
Proof.
  pose proof (connected_ack IntRef.int_of_str good_port
                (toggle_relay (state_payload 0)) eq_refl) as H.
  cbv beta iota zeta in H. destruct H as [Hack Hflag].
  assert (Hrange : 0 ≤ coerce_state IntRef.int_of_str (state_payload 0) ≤ 1)
    by (vm_compute; split; discriminate).
  split; [reflexivity |]. split; [exact Hack |].
  split; [exact Hrange | exact (Hflag Hrange)].
Defined.

(** The state 0.5 is not 0, and yet it switches the relay off: [int]
    cuts it to 0 before the test. *)
Lemma half_state_switches_off :
  ¬ (1 # 2 == 0)%Q ∧
  dispatch IntRef.int_of_str (Some good_port)
    (toggle_relay (VDict {["state" := VFloat (Finite (1 # 2))]}))
    = [SerWrite ("RELAY:0" +:+ LF) Written;
       Reply "relay_ack" (VDict {["sent" := VInt 0]})].
Proof. split; [discriminate | reflexivity]. Qed.

Lemma ack_echoes_coerced_state_witness :
  handle_toggle IntRef.int_of_str (Some good_port) (state_payload 5) =
    [SerWrite ("RELAY:1" +:+ LF) Written;
     Reply "relay_ack" (VDict {["sent" := VInt 5]})] ∧
  handle_set_auto IntRef.int_of_str (Some good_port) (state_payload 5) =
    [SerWrite ("AUTO:1" +:+ LF) Written;
     Reply "auto_ack" (VDict {["sent" := VInt 5]})].
Proof.
  assert (H5 : ({["state" := VInt 5]} : gmap string value) !! "state"
                 = Some (VInt 5)) by reflexivity.
  destruct (ack_echoes_coerced_state IntRef.int_of_str good_port
              {["state" := VInt 5]} 5 H5 ltac:(lia) ltac:(lia))
    as (Hrelay & Hauto & _).
  split; [exact (Hrelay eq_refl) | exact (Hauto eq_refl)].
Defined.

(** ** The serial read loop *)

Section ReadLoopFacts.
Variable json_loads : string → result value.

(** A turn on a line that is not blank is the decoding of the trimmed
    line. *)
Lemma read_serial_turn_line raw :
  strip raw ≠ "" →
  read_serial_turn json_loads raw =
    match decode json_loads (strip raw) with
    | Ok e => Turn [e] None
    | Raise e => Turn [] (Some e)
    end.
Proof.
  intros H. unfold read_serial_turn.
  destruct raw as [| c raw]; [contradiction H; reflexivity |].
  destruct (strip (String c raw)); [contradiction H; reflexivity | reflexivity].
Qed.

Lemma decode_object line m :
  json_loads line = Ok (VDict m) →
  decode json_loads line =
    Ok (if bool_decide (expected ⊆ dom m)
        then Broadcast "sensor_update" (VDict m)
        else Broadcast "serial_line" (opaque line)).
Proof.
  intros H. unfold decode, classify. rewrite H. simpl.
  destruct (bool_decide _); reflexivity.
Qed.

Lemma decode_parse_error line :
  json_loads line = Raise JSONDecodeError →
  decode json_loads line = Ok (Broadcast "serial_line" (opaque line)).
Proof. intros H. unfold decode, classify. rewrite H. reflexivity. Qed.

(** A line that parses to something other than an object: [data.keys()]
    raises, the inner [except] does not apply, nothing is emitted. *)
Lemma decode_non_object line v :
  json_loads line = Ok v → (∀ m, v ≠ VDict m) →
  decode json_loads line = Raise AttributeError.
Proof.
  intros H Hv. unfold decode, classify. rewrite H. simpl.
  destruct v; try reflexivity. contradiction (Hv m). reflexivity.
Qed.

Lemma telemetry_turn raw m :
  strip raw ≠ "" → json_loads (strip raw) = Ok (VDict m) →
  expected ⊆ dom m →
  read_serial_turn json_loads raw =
    Turn [Broadcast "sensor_update" (VDict m)] None.
Proof.
  intros Hline Hparse Hkeys.
  rewrite (read_serial_turn_line raw Hline), (decode_object _ m Hparse).
  rewrite bool_decide_eq_true_2 by exact Hkeys. reflexivity.
Qed.

(** A line that parses to an object with all five keys is broadcast as
    [sensor_update] with the parsed object, every field as parsed, for
    payload; a line on which parsing raises [JSONDecodeError] is
    broadcast as [serial_line] with the trimmed text of the line. *)
Lemma decode_telemetry_or_opaque raw :
  strip raw ≠ "" →
  (∀ m, json_loads (strip raw) = Ok (VDict m) → expected ⊆ dom m →
     read_serial_turn json_loads raw =
       Turn [Broadcast "sensor_update" (VDict m)] None) ∧
  (json_loads (strip raw) = Raise JSONDecodeError →
     read_serial_turn json_loads raw =
       Turn [Broadcast "serial_line" (VDict {["line" := VStr (strip raw)]})]
            None).
Proof.
  intros Hline. split.
  - intros m. apply telemetry_turn. exact Hline.
  - intros Herr.
    rewrite (read_serial_turn_line raw Hline), (decode_parse_error _ Herr).
    reflexivity.
Qed.

(** C9. A line that parses to an object with the five keys and more is
    telemetry all the same, and the [sensor_update] carries the whole
    object, the further keys included. *)
Theorem superset_is_telemetry raw m :
  strip raw ≠ "" → json_loads (strip raw) = Ok (VDict m) →
  expected ⊂ dom m →
  ∃ payload : gmap string value,
    read_serial_turn json_loads raw =
      Turn [Broadcast "sensor_update" (VDict payload)] None ∧
    payload = m ∧
    (∃ extra : string, (extra ∉ expected) ∧ is_Some (payload !! extra)).
Proof.
  intros Hline Hparse [Hsub Hstrict]. exists m.
  split; [exact (telemetry_turn raw m Hline Hparse Hsub) |].
  split; [reflexivity |].
  destruct (set_choose_or_empty (dom m ∖ expected)) as [[k Hk] | Hnone].
  - apply elem_of_difference in Hk as [Hin Hnot].
    exists k. split; [exact Hnot | apply elem_of_dom; exact Hin].
  - contradiction Hstrict. intros k Hin.
    destruct (decide (k ∈ expected)) as [Hk | Hk]; [exact Hk |].
    exfalso. apply (not_elem_of_empty (C := gset string) k).
    rewrite <- Hnone. apply elem_of_difference. split; assumption.
Qed.
End ReadLoopFacts.

(** *** The read loop on concrete lines, with the reference parser *)

Lemma decode_telemetry_or_opaque_witness :
  read_serial_turn JsonRef.loads (scenario_line +:+ LF) =
    Turn [Broadcast "sensor_update" (VDict scenario_data)] None ∧
  read_serial_turn JsonRef.loads " hello world " =
    Turn [Broadcast "serial_line" (VDict {["line" := VStr "hello world"]})] None.
Proof.
  split.
  - assert (Hline : strip (scenario_line +:+ LF) ≠ "") by discriminate.
    assert (Hparse : JsonRef.loads (strip (scenario_line +:+ LF))
                     = Ok (VDict scenario_data)) by (vm_compute; reflexivity).
    assert (Hkeys : expected ⊆ dom scenario_data)
      by (apply (bool_decide_unpack _); vm_compute; exact I).
    exact (proj1 (decode_telemetry_or_opaque JsonRef.loads _ Hline)
             scenario_data Hparse Hkeys).
  - assert (Hline : strip " hello world " ≠ "") by discriminate.
    assert (Herr : JsonRef.loads (strip " hello world ") = Raise JSONDecodeError)
      by reflexivity.
    exact (proj2 (decode_telemetry_or_opaque JsonRef.loads _ Hline) Herr).
Defined.

Lemma superset_is_telemetry_witness :
  read_serial_turn JsonRef.loads uptime_line =
    Turn [Broadcast "sensor_update" (VDict uptime_data)] None ∧
  uptime_data !! "uptime" = Some (VInt 17).
Proof.
  assert (Hline : strip uptime_line ≠ "") by discriminate.
  assert (Hparse : JsonRef.loads (strip uptime_line) = Ok (VDict uptime_data))
    by (vm_compute; reflexivity).
  assert (Hkeys : expected ⊂ dom uptime_data).
  { split.
    - apply (bool_decide_unpack _). vm_compute. exact I.
    - intros H. apply (bool_decide_pack _) in H. vm_compute in H. exact H. }
  destruct (superset_is_telemetry JsonRef.loads uptime_line uptime_data
              Hline Hparse Hkeys) as (payload & Hturn & -> & _).
  split; [exact Hturn | reflexivity].
Defined.

(** C1, at a line where the code falls short of it. A line that is one
    integer of 4301 digits fails to parse: [json.loads] raises
    [ValueError], not [JSONDecodeError], so the inner [except] does not
    apply and the turn emits no [serial_line], nor anything else. *)
Theorem unparsable_line_is_dropped :
  String.length overlong_integer_line = 4301%nat ∧
  JsonRef.loads overlong_integer_line = Raise ValueError ∧
  read_serial_turn JsonRef.loads overlong_integer_line
    = Turn [] (Some ValueError).
Proof. repeat split; vm_compute; reflexivity. Qed.

(** C3, at lines where the code falls short of it. The lines [5] and
    ["abc"] parse, to an [int] and to a [str]; [data.keys()] then raises
    [AttributeError], which only the loop's outer [except] catches: the
    turn emits neither [sensor_update] nor [serial_line]. *)
Theorem non_object_line_is_dropped :
  JsonRef.loads "5" = Ok (VInt 5) ∧
  read_serial_turn JsonRef.loads "5" = Turn [] (Some AttributeError) ∧
  JsonRef.loads (JsonRef.quoted "'abc'") = Ok (VStr "abc") ∧
  read_serial_turn JsonRef.loads (JsonRef.quoted "'abc'")
    = Turn [] (Some AttributeError).
Proof. repeat split. Qed.

(** ** Float arithmetic *)

Section Binary64Facts.
Import Binary64.
#[local] Open Scope Q_scope.

Lemma pow2_pos e : 0 < 2 ^ e.
Proof. apply Qpower_0_lt. reflexivity. Qed.

Lemma pow2_plus a b : 2 ^ (a + b) == 2 ^ a * 2 ^ b.
Proof. apply Qpower_plus. discriminate. Qed.

Lemma pow2_le a b : (a <= b)%Z -> 2 ^ a <= 2 ^ b.
Proof. intros H. apply Qpower_le_compat_l; [exact H | discriminate]. Qed.

Lemma pow2_lt_inv a b : 2 ^ a < 2 ^ b -> (a < b)%Z.
Proof. intros H. apply (Qpower_lt_compat_l_inv 2); [exact H | reflexivity]. Qed.

Lemma log2_bounds n :
  (0 < n)%Z -> 2 ^ Z.log2 n <= inject_Z n /\ inject_Z n < 2 ^ (Z.log2 n + 1).
Proof.
  intros Hn. destruct (Z.log2_spec n Hn) as [Hlo Hhi].
  pose proof (Z.log2_nonneg n) as Hnn.
  split.
  - rewrite <- (Zpower_Qpower 2) by exact Hnn. rewrite <- Zle_Qle. exact Hlo.
  - rewrite <- (Zpower_Qpower 2) by lia. rewrite <- Zlt_Qlt. exact Hhi.
Qed.

Lemma ilog2_spec x :
  0 < x -> 2 ^ ilog2 x <= x /\ x < 2 ^ (ilog2 x + 1).
Proof.
  intros Hx.
  assert (Hn : (0 < Qnum x)%Z).
  { unfold Qlt in Hx. simpl in Hx. lia. }
  destruct (log2_bounds (Qnum x) Hn) as [Hn1 Hn2].
  destruct (log2_bounds (Zpos (Qden x)) eq_refl) as [Hd1 Hd2].
  assert (Hxd : x * inject_Z (Zpos (Qden x)) == inject_Z (Qnum x)).
  { unfold Qeq, Qmult, inject_Z. simpl. lia. }
  set (a := Z.log2 (Qnum x)) in *. set (b := Z.log2 (Zpos (Qden x))) in *.
  set (D := inject_Z (Zpos (Qden x))) in *. set (N := inject_Z (Qnum x)) in *.
  assert (HD : 0 < D) by (unfold D, Qlt; simpl; lia).
  unfold ilog2. fold a b.
  destruct (Qle_bool (2 ^ (a - b)) x) eqn:Hc.
  - apply Qle_bool_iff in Hc. split; [exact Hc |].
    assert (E : 2 ^ (a + 1) == 2 ^ (a - b + 1) * 2 ^ b).
    { rewrite <- pow2_plus. f_equiv. lia. }
    pose proof (pow2_pos (a - b + 1)) as Hp.
    apply (Qmult_lt_r _ _ D HD). rewrite Hxd.
    eapply Qlt_le_trans; [exact Hn2 |]. rewrite E.
    apply Qmult_le_l; assumption.
  - assert (Hlt : x < 2 ^ (a - b)).
    { apply Qnot_le_lt. intros H. apply Qle_bool_iff in H. congruence. }
    split.
    + assert (E : 2 ^ a == 2 ^ (a - b - 1) * 2 ^ (b + 1)).
      { rewrite <- pow2_plus. f_equiv. lia. }
      pose proof (pow2_pos (a - b - 1)) as Hp.
      apply Qlt_le_weak. apply (Qmult_lt_r _ _ D HD). rewrite Hxd.
      eapply Qlt_le_trans; [| exact Hn1]. rewrite E.
      apply Qmult_lt_l; assumption.
    + replace (a - b - 1 + 1)%Z with (a - b)%Z by lia. exact Hlt.
Qed.

Lemma ilog2_mono x y : 0 < x -> x <= y -> (ilog2 x <= ilog2 y)%Z.
Proof.
  intros Hx Hxy.
  assert (Hy : 0 < y) by lra.
  destruct (ilog2_spec x Hx) as [H1 _]. destruct (ilog2_spec y Hy) as [_ H2].
  assert (H : 2 ^ ilog2 x < 2 ^ (ilog2 y + 1)) by lra.
  apply pow2_lt_inv in H. lia.
Qed.

Lemma rne_floor x : (Qfloor x <= rne x <= Qfloor x + 1)%Z.
Proof.
  unfold rne. destruct (Qcompare _ _); [destruct (Z.even _) | |]; lia.
Qed.

Lemma rne_inject z : rne (inject_Z z) = z.
Proof.
  unfold rne. rewrite Qfloor_Z.
  destruct (Qcompare_spec (inject_Z z - inject_Z z) (1 # 2)) as [H | H | H];
    [exfalso; lra | reflexivity | exfalso; lra].
Qed.

Lemma rne_mono x y : x <= y -> (rne x <= rne y)%Z.
Proof.
  intros Hxy.
  pose proof (Qfloor_resp_le x y Hxy) as Hf.
  destruct (Z.eq_dec (Qfloor x) (Qfloor y)) as [E | NE].
  - unfold rne. rewrite E.
    destruct (Qcompare_spec (x - inject_Z (Qfloor y)) (1 # 2)) as [Hx | Hx | Hx];
      destruct (Qcompare_spec (y - inject_Z (Qfloor y)) (1 # 2)) as [Hy | Hy | Hy];
      try destruct (Z.even (Qfloor y)); try lia; exfalso; lra.
  - pose proof (rne_floor x). pose proof (rne_floor y). lia.
Qed.

Lemma exponent_mono x y : 0 < x -> x <= y -> (exponent x <= exponent y)%Z.
Proof.
  intros Hx Hxy. pose proof (ilog2_mono x y Hx Hxy). unfold exponent. lia.
Qed.

Lemma scaled_mono x y e : x <= y -> x / 2 ^ e <= y / 2 ^ e.
Proof.
  intros H. unfold Qdiv. apply Qmult_le_compat_r; [exact H |].
  apply Qlt_le_weak, Qinv_lt_0_compat, pow2_pos.
Qed.

Lemma pow2Z k : (0 <= k)%Z -> inject_Z (2 ^ k) == 2 ^ k.
Proof. intros H. apply (Zpower_Qpower 2 k H). Qed.

(** The significand of a positive number has at most 53 bits. *)
Lemma significand_upper x :
  0 < x -> (rne (x / 2 ^ exponent x) <= 2 ^ 53)%Z.
Proof.
  intros Hx. destruct (ilog2_spec x Hx) as [_ Hhi].
  rewrite <- (rne_inject (2 ^ 53)). apply rne_mono.
  rewrite pow2Z by lia.
  apply Qle_shift_div_r; [apply pow2_pos |].
  rewrite <- pow2_plus. apply Qlt_le_weak.
  eapply Qlt_le_trans; [exact Hhi |]. apply pow2_le. unfold exponent. lia.
Qed.

(** A normal number has a significand of at least 53 bits. *)
Lemma significand_lower x :
  0 < x -> (-1074 < exponent x)%Z -> (2 ^ 52 <= rne (x / 2 ^ exponent x))%Z.
Proof.
  intros Hx He. destruct (ilog2_spec x Hx) as [Hlo _].
  rewrite <- (rne_inject (2 ^ 52)). apply rne_mono.
  rewrite pow2Z by lia.
  apply Qle_shift_div_l; [apply pow2_pos |].
  rewrite <- pow2_plus.
  eapply Qle_trans; [| exact Hlo]. apply pow2_le. unfold exponent in *. lia.
Qed.

Lemma round_pos_nonneg x : 0 < x -> 0 <= round_pos x.
Proof.
  intros Hx. unfold round_pos.
  apply Qmult_le_0_compat; [| apply Qlt_le_weak, pow2_pos].
  change 0 with (inject_Z 0). rewrite <- Zle_Qle.
  rewrite <- (rne_inject 0). apply rne_mono.
  apply Qle_shift_div_l; [apply pow2_pos |].
  change (inject_Z 0) with 0. rewrite Qmult_0_l. lra.
Qed.

Lemma round_pos_mono x y : 0 < x -> x <= y -> round_pos x <= round_pos y.
Proof.
  intros Hx Hxy. assert (Hy : 0 < y) by lra.
  pose proof (exponent_mono x y Hx Hxy) as He.
  unfold round_pos.
  destruct (Z.eq_dec (exponent x) (exponent y)) as [E | NE].
  - rewrite E. apply Qmult_le_compat_r; [| apply Qlt_le_weak, pow2_pos].
    rewrite <- Zle_Qle. apply rne_mono, scaled_mono, Hxy.
  - pose proof (significand_upper x Hx) as Hu.
    assert (Hn : (-1074 < exponent y)%Z) by (unfold exponent in *; lia).
    pose proof (significand_lower y Hy Hn) as Hl.
    rewrite Zle_Qle in Hu, Hl. rewrite pow2Z in Hu, Hl by lia.
    pose proof (pow2_pos (exponent x)) as Px.
    pose proof (pow2_pos (exponent y)) as Py.
    apply Qle_trans with (2 ^ 53 * 2 ^ exponent x).
    { apply Qmult_le_compat_r; [exact Hu | lra]. }
    apply Qle_trans with (2 ^ 52 * 2 ^ exponent y).
    2:{ apply Qmult_le_compat_r; [exact Hl | lra]. }
    rewrite <- !pow2_plus. apply pow2_le. lia.
Qed.

Lemma round_sign x :
  (0 < x -> round x = round_pos x) /\
  (x == 0 -> round x = 0) /\
  (x < 0 -> round x = - round_pos (- x)).
Proof.
  unfold round, Qlt, Qeq. destruct x as [[| p | p] d]; simpl; repeat split; intros; lia || reflexivity.
Qed.

(** Rounding is monotone. *)
Theorem round_mono x y : x <= y -> round x <= round y.
Proof.
  intros Hxy.
  destruct (round_sign x) as (Xp & Xz & Xn), (round_sign y) as (Yp & Yz & Yn).
  destruct (Q_dec x 0) as [[Hx | Hx] | Hx], (Q_dec y 0) as [[Hy | Hy] | Hy];
    try (exfalso; lra).
  - rewrite Xn, Yn by assumption.
    apply Qopp_le_compat, round_pos_mono; lra.
  - rewrite Xn by assumption.
    pose proof (round_pos_nonneg (- x)). pose proof (round_pos_nonneg y).
    rewrite Yp by assumption. lra.
  - rewrite Xn, Yz by assumption. pose proof (round_pos_nonneg (- x)). lra.
  - rewrite Xp, Yp by assumption. apply round_pos_mono; assumption.
  - rewrite Xz, Yp by assumption. apply round_pos_nonneg; assumption.
  - rewrite Xz, Yz by assumption. lra.
Qed.
End Binary64Facts.

(** ** The simulator *)

Section SimulatorFacts.
Import Binary64.
#[local] Open Scope Q_scope.

(** An exact result between two numbers of the format, both within
    range, is stored as a finite float between them. *)
Lemma of_Q_between lo hi x :
  round lo == lo → round hi == hi →
  - overflow < lo → hi < overflow →
  lo <= x <= hi →
  ∃ q, of_Q x = Finite q ∧ lo <= q <= hi.
Proof.
  intros Hlo Hhi Hmin Hmax [Hx1 Hx2].
  pose proof (round_mono lo x Hx1) as H1. pose proof (round_mono x hi Hx2) as H2.
  rewrite Hlo in H1. rewrite Hhi in H2.
  exists (Qred (round x)). unfold of_Q.
  destruct (Qle_bool overflow (Qabs (round x))) eqn:Hov.
  - apply Qle_bool_iff in Hov. exfalso.
    assert (Habs : Qabs (round x) < overflow).
    { apply Qabs_Qlt_condition. split; lra. }
    lra.
  - split; [reflexivity |]. rewrite Qred_correct. split; assumption.
Qed.

Lemma round_zero : round 0 == 0.
Proof. reflexivity. Qed.

Lemma random_unit k : (0 <= k < 2 ^ 53)%Z → 0 <= k # 2 ^ 53 ∧ k # 2 ^ 53 < 1.
Proof.
  intros Hk. unfold Qle, Qlt. simpl Qnum. simpl Qden.
  change (Z.pos (2 ^ 53)) with (2 ^ 53)%Z. lia.
Qed.

(** [a + w * r] for a random [r], where [w] is the float [b - a]: a
    finite float from [a] to [b]. *)
Lemma uniform_between (a b w : Q) (k : Z) :
  round a == a → round b == b → round w == w →
  - overflow < a → b < overflow → w < overflow →
  0 <= w → a + w <= b →
  (0 <= k < 2 ^ 53)%Z →
  ∃ q, add (Finite a) (mul (Finite w) (Finite (k # 2 ^ 53))) = Finite q ∧
       a <= q <= b.
Proof.
  intros Ha Hb Hw Hmin Hmax Hwmax Hw0 Hab Hk.
  destruct (random_unit k Hk) as [Hr0 Hr1].
  assert (Hov : 0 < overflow) by reflexivity.
  destruct (of_Q_between 0 w (w * (k # 2 ^ 53)) round_zero Hw) as (p & Hp & Hp0 & Hp1).
  { lra. }
  { exact Hwmax. }
  { split; [apply Qmult_le_0_compat; assumption |].
    pose proof (Qmult_le_compat_r (k # 2 ^ 53) 1 w (Qlt_le_weak _ _ Hr1) Hw0).
    lra. }
  simpl. rewrite Hp. simpl.
  destruct (of_Q_between a b (a + p) Ha Hb Hmin Hmax) as (q & Hq & Hq0 & Hq1).
  { lra. }
  exists q. auto.
Qed.

(** Rounding to one decimal keeps a float between two decimals that
    are floats themselves. *)
Lemma py_round_between (a b : Z) (q : Q) :
  round (inject_Z a / 10) == inject_Z a / 10 →
  round (inject_Z b / 10) == inject_Z b / 10 →
  - overflow < inject_Z a / 10 → inject_Z b / 10 < overflow →
  inject_Z a / 10 <= q <= inject_Z b / 10 →
  ∃ r, py_round (Finite q) 1 = Finite r ∧
       inject_Z a / 10 <= r <= inject_Z b / 10 ∧
       one_decimal (Finite r).
Proof.
  intros Ha Hb Hmin Hmax [Hq0 Hq1]. simpl.
  change (10 ^ 1) with 10.
  unfold Qdiv in *. change (/ 10) with (1 # 10) in *.
  assert (Hn : (a <= rne (q * 10) <= b)%Z).
  { split.
    - rewrite <- (rne_inject a). apply rne_mono. lra.
    - rewrite <- (rne_inject b). apply rne_mono. lra. }
  destruct (of_Q_between _ _ (inject_Z (rne (q * 10)) / 10) Ha Hb Hmin Hmax)
    as (r & Hr & Hr0 & Hr1).
  { split; (apply Qmult_le_compat_r; [rewrite <- Zle_Qle; lia | discriminate]). }
  exists r. split; [exact Hr |]. split; [split; assumption |].
  exists (rne (q * 10)). symmetry. exact Hr.
Qed.
End SimulatorFacts.

Section SimulatorClaim.
Variable rng : Type.
Variable randbelow : Z → rng → Z * rng.
Variable random_bits : rng → Z * rng.

(** What the [random] module promises of its generator. *)
Hypothesis randbelow_range : ∀ n g, 0 < n → 0 ≤ (randbelow n g).1 < n.
Hypothesis random_bits_range : ∀ g, 0 ≤ (random_bits g).1 < 2 ^ 53.

Lemma randint_range a b g :
  a ≤ b → a ≤ (randint rng randbelow a b g).1 ≤ b.
Proof.
  intros Hab. unfold randint.
  pose proof (randbelow_range (b + 1 - a) g ltac:(lia)) as H.
  destruct (randbelow (b + 1 - a) g) as [r g']. simpl in *. lia.
Qed.

#[local] Ltac by_computation := vm_compute; first [reflexivity | discriminate].

Lemma uniform_22_30 g :
  ∃ q, (uniform rng random_bits (Finite 22) (Finite 30) g).1 = Finite q ∧
       (22 <= q <= 30)%Q.
Proof.
  unfold uniform, random. pose proof (random_bits_range g) as Hk.
  destruct (random_bits g) as [k g']. cbv beta iota zeta delta [fst] in *.
  replace (Binary64.sub (Finite 30) (Finite 22)) with (Finite 8)
    by by_computation.
  apply (uniform_between 22 30 8 k); try exact Hk; by_computation.
Qed.

Lemma uniform_35_70 g :
  ∃ q, (uniform rng random_bits (Finite 35) (Finite 70) g).1 = Finite q ∧
       (35 <= q <= 70)%Q.
Proof.
  unfold uniform, random. pose proof (random_bits_range g) as Hk.
  destruct (random_bits g) as [k g']. cbv beta iota zeta delta [fst] in *.
  replace (Binary64.sub (Finite 70) (Finite 35)) with (Finite 35)
    by by_computation.
  apply (uniform_between 35 70 35 k); try exact Hk; by_computation.
Qed.

Lemma fake_reading_plausible g :
  plausible (fake_reading rng randbelow random_bits g).1.
Proof.
  unfold fake_reading.
  pose proof (randint_range 300 700 g ltac:(lia)) as Hmq.
  destruct (randint rng randbelow 300 700 g) as [mq g1].
  pose proof (randint_range 20 80 g1 ltac:(lia)) as Hsoil.
  destruct (randint rng randbelow 20 80 g1) as [soil g2].
  destruct (uniform_22_30 g2) as (t & Ht & Ht0 & Ht1).
  destruct (uniform rng random_bits (Finite 22) (Finite 30) g2) as [temp g3].
  destruct (uniform_35_70 g3) as (h & Hh & Hh0 & Hh1).
  destruct (uniform rng random_bits (Finite 35) (Finite 70) g3) as [hum g4].
  simpl in Hmq, Hsoil, Ht, Hh. subst temp hum.
  destruct (py_round_between 220 300 t
              ltac:(by_computation) ltac:(by_computation)
              ltac:(by_computation) ltac:(by_computation))
    as (t' & Et & [Et0 Et1] & Dt).
  { split; [apply Qle_trans with 22%Q | apply Qle_trans with 30%Q];
      first [assumption | by_computation]. }
  destruct (py_round_between 350 700 h
              ltac:(by_computation) ltac:(by_computation)
              ltac:(by_computation) ltac:(by_computation))
    as (h' & Eh & [Eh0 Eh1] & Dh).
  { split; [apply Qle_trans with 35%Q | apply Qle_trans with 70%Q];
      first [assumption | by_computation]. }
  exists mq, soil, (Finite t'), (Finite h').
  rewrite Et, Eh. cbn [fst].
  repeat apply conj; try reflexivity; try lia; try exact Dt; try exact Dh;
    cbn [Binary64.le].
  - apply Qle_trans with (inject_Z 220 / 10)%Q; first [assumption | by_computation].
  - apply Qle_trans with (inject_Z 300 / 10)%Q; first [assumption | by_computation].
  - apply Qle_trans with (inject_Z 350 / 10)%Q; first [assumption | by_computation].
  - apply Qle_trans with (inject_Z 700 / 10)%Q; first [assumption | by_computation].
Qed.

(** C5. Every turn of the simulated sensor loop broadcasts one
    [sensor_update] whose reading has [mq] from 300 to 700, [soil] from
    20 to 80, [temp] from 22.0 to 30.0 and [hum] from 35.0 to 70.0, both
    floats with one decimal place, and [relay] 0, whatever the
    generator draws. *)
Theorem fake_sensor_plausible n g :
  length (fake_sensor_thread rng randbelow random_bits n g) = n ∧
  Forall (λ e, ∃ data, e = Broadcast "sensor_update" (VDict data) ∧
                       plausible data)
    (fake_sensor_thread rng randbelow random_bits n g).
Proof.
  revert g. induction n as [| n IH]; intros g; simpl.
  - split; [reflexivity | constructor].
  - pose proof (fake_reading_plausible g) as Hp.
    destruct (fake_reading rng randbelow random_bits g) as [data g'].
    destruct (IH g') as [Hlen Hall]. simpl. split.
    + f_equal. exact Hlen.
    + constructor; [exists data; split; [reflexivity | exact Hp] | exact Hall].
Qed.
End SimulatorClaim.


(** *** The simulator on the reference generator *)

Lemma rngref_next_range g : 0 ≤ RngRef.next g < 2 ^ 64.
Proof. unfold RngRef.next. apply Z.mod_pos_bound. reflexivity. Qed.

Lemma rngref_randbelow_range n g :
  0 < n → 0 ≤ (RngRef.randbelow n g).1 < n.
Proof. intros Hn. unfold RngRef.randbelow. simpl. apply Z.mod_pos_bound, Hn. Qed.

Lemma rngref_random_bits_range g : 0 ≤ (RngRef.random_bits g).1 < 2 ^ 53.
Proof.
  pose proof (rngref_next_range g) as [Hlo Hhi].
  unfold RngRef.random_bits. cbn [fst]. split.
  - apply Z.div_pos; [exact Hlo | reflexivity].
  - apply Z.div_lt_upper_bound; [reflexivity | exact Hhi].
Qed.

Lemma fake_sensor_plausible_witness :
  (∀ n g, 0 < n → 0 ≤ (RngRef.randbelow n g).1 < n) ∧
  (∀ g, 0 ≤ (RngRef.random_bits g).1 < 2 ^ 53) ∧
  length (fake_sensor_thread Z RngRef.randbelow RngRef.random_bits 3 2024) = 3%nat ∧
  Forall (λ e, ∃ data, e = Broadcast "sensor_update" (VDict data) ∧
                       plausible data)
    (fake_sensor_thread Z RngRef.randbelow RngRef.random_bits 3 2024).
Proof.
  split; [exact rngref_randbelow_range |].
  split; [exact rngref_random_bits_range |].
  exact (fake_sensor_plausible Z RngRef.randbelow RngRef.random_bits
           rngref_randbelow_range rngref_random_bits_range 3 2024).
Defined.


(** * Further properties *)

(** ** Trimming *)

Lemma lstrip_head s :
  lstrip s = EmptyString ∨ ∃ c r, lstrip s = String c r ∧ isspace c = false.
Proof.
  induction s as [| c r IH]; simpl; [left; reflexivity |].
  destruct (isspace c) eqn:Hc; [exact IH |].
  right. exists c, r. split; [reflexivity | exact Hc].
Qed.

Lemma rstrip_idem s : rstrip (rstrip s) = rstrip s.
Proof.
  induction s as [| c r IH]; simpl; [reflexivity |].
  destruct (rstrip r) as [| c' r'] eqn:Hr.
  - destruct (isspace c) eqn:Hc; simpl; [reflexivity |]. rewrite Hc. reflexivity.
  - simpl in IH |- *. rewrite IH. reflexivity.
Qed.

Lemma rstrip_keeps_head c r :
  isspace c = false → ∃ r', rstrip (String c r) = String c r'.
Proof.
  intros Hc. simpl. destruct (rstrip r); [rewrite Hc |]; eexists; reflexivity.
Qed.

(** Trimming a trimmed text changes nothing. *)
Lemma strip_idem s : strip (strip s) = strip s.
Proof.
  unfold strip.
  destruct (lstrip_head s) as [-> | (c & r & -> & Hc)]; [reflexivity |].
  destruct (rstrip_keeps_head c r Hc) as [r' Hr]. rewrite Hr.
  simpl lstrip. rewrite Hc, <- Hr. apply rstrip_idem.
Qed.

(** ** The serial read loop, further *)

Section ReadLoopMore.
Variable json_loads : string → result value.

Lemma read_serial_turn_blank raw :
  strip raw = "" → read_serial_turn json_loads raw = idle.
Proof.
  intros H. unfold read_serial_turn. destruct raw; [reflexivity |].
  rewrite H. reflexivity.
Qed.

Lemma read_serial_turn_at_most_one raw :
  (length (effects (read_serial_turn json_loads raw)) ≤ 1)%nat.
Proof.
  unfold read_serial_turn. destruct raw; [simpl; lia |].
  destruct (strip _); [simpl; lia |].
  destruct (decode _ _); simpl; lia.
Qed.

Lemma turn_effect_cases raw e :
  e ∈ effects (read_serial_turn json_loads raw) →
  (∃ m, e = Broadcast "sensor_update" (VDict m) ∧
        json_loads (strip raw) = Ok (VDict m) ∧ expected ⊆ dom m) ∨
  (e = Broadcast "serial_line" (VDict {["line" := VStr (strip raw)]}) ∧
   (json_loads (strip raw) = Raise JSONDecodeError ∨
    ∃ m, json_loads (strip raw) = Ok (VDict m) ∧ ¬ expected ⊆ dom m)).
Proof.
  unfold read_serial_turn.
  destruct raw as [| c raw]; [intros H; inversion H |].
  destruct (strip (String c raw)) as [| c' line] eqn:Hs; [intros H; inversion H |].
  unfold decode, classify.
  destruct (json_loads (String c' line)) as [v | ex] eqn:Hparse; simpl.
  - destruct v; simpl; try (intros H; inversion H; fail).
    destruct (bool_decide (expected ⊆ dom m)) eqn:Hsub; simpl; intros H;
      apply list_elem_of_singleton in H; subst e.
    + left. exists m. split; [reflexivity |]. split; [reflexivity |].
      apply bool_decide_eq_true in Hsub. exact Hsub.
    + right. split; [reflexivity |]. right. exists m. split; [reflexivity |].
      apply bool_decide_eq_false in Hsub. exact Hsub.
  - destruct ex; simpl; intros H; try (inversion H; fail).
    apply list_elem_of_singleton in H. subst e.
    right. split; [reflexivity | left; reflexivity].
Qed.

(** X1. An object that lacks one of the five keys is passed through as
    [serial_line] with the trimmed text of its line. *)
Theorem missing_key_is_opaque raw m k :
  strip raw ≠ "" → json_loads (strip raw) = Ok (VDict m) →
  k ∈ expected → m !! k = None →
  read_serial_turn json_loads raw =
    Turn [Broadcast "serial_line" (VDict {["line" := VStr (strip raw)]})] None.
Proof.
  intros Hline Hparse Hk Hm.
  rewrite (read_serial_turn_line json_loads raw Hline).
  rewrite (decode_object json_loads _ m Hparse).
  rewrite bool_decide_eq_false_2; [reflexivity |].
  intros Hsub. apply Hsub in Hk. apply elem_of_dom in Hk as [v Hv]. congruence.
Qed.

(** X2. Whatever a turn emits is one of two broadcasts: a
    [sensor_update] whose payload is the object the line parsed to, which
    then has all five keys, or a [serial_line] with the trimmed line, and
    then the line failed to parse or parsed to an object lacking a key. *)
Theorem turn_effect_inv raw e :
  e ∈ effects (read_serial_turn json_loads raw) →
  (∃ m, e = Broadcast "sensor_update" (VDict m) ∧
        json_loads (strip raw) = Ok (VDict m) ∧ expected ⊆ dom m) ∨
  (e = Broadcast "serial_line" (VDict {["line" := VStr (strip raw)]}) ∧
   (json_loads (strip raw) = Raise JSONDecodeError ∨
    ∃ m, json_loads (strip raw) = Ok (VDict m) ∧ ¬ expected ⊆ dom m)).
Proof. intros H. apply turn_effect_cases. exact H. Qed.

(** X3. A turn emits at most one event, and none on an empty read or on
    a line of white space only; so the loop emits at most as many events
    as it read lines that are not blank. *)
Theorem read_serial_thread_bound reads :
  (∀ raw, length (effects (read_serial_turn json_loads raw)) ≤ 1)%nat ∧
  (∀ raw, strip raw = "" → read_serial_turn json_loads raw = idle) ∧
  (length (read_serial_thread json_loads reads)
     ≤ length (filter (λ raw, strip raw ≠ "") reads))%nat.
Proof.
  split; [exact read_serial_turn_at_most_one |].
  split; [exact read_serial_turn_blank |].
  unfold read_serial_thread. induction reads as [| raw reads IH]; simpl; [lia |].
  rewrite length_app, filter_cons.
  destruct (decide (strip raw ≠ "")) as [Hne | He].
  - simpl. pose proof (read_serial_turn_at_most_one raw). lia.
  - assert (Hs : strip raw = "") by (destruct (decide (strip raw = "")); tauto).
    rewrite (read_serial_turn_blank raw Hs). simpl. exact IH.
Qed.

(** X4. The text of an emitted [serial_line] is never empty and is
    already trimmed. *)
Theorem serial_line_is_trimmed raw (line : string) :
  Broadcast "serial_line" (VDict {["line" := VStr line]})
    ∈ effects (read_serial_turn json_loads raw) →
  line = strip raw ∧ line ≠ "" ∧ strip line = line.
Proof.
  intros Hin.
  assert (Hne : strip raw ≠ "").
  { intros Hs. rewrite (read_serial_turn_blank raw Hs) in Hin. inversion Hin. }
  assert (Hl : line = strip raw).
  { destruct (turn_effect_cases raw _ Hin) as [(m & E & _) | (E & _)].
    - discriminate E.
    - apply (f_equal (λ e, match e with
                           | Broadcast _ (VDict m) => m !! "line"
                           | _ => None
                           end)) in E.
      rewrite !lookup_singleton_eq in E. congruence. }
  subst line. split; [reflexivity |]. split; [exact Hne | apply strip_idem].
Qed.

(** X5. Only [JSONDecodeError] turns a line into a [serial_line]. When
    [json.loads] raises anything else, or returns something that is not
    an object, the turn emits nothing and the exception goes to the
    loop's outer handler. *)
Theorem other_failures_emit_nothing raw :
  strip raw ≠ "" →
  (∀ e, json_loads (strip raw) = Raise e → e ≠ JSONDecodeError →
     read_serial_turn json_loads raw = Turn [] (Some e)) ∧
  (∀ v, json_loads (strip raw) = Ok v → (∀ m, v ≠ VDict m) →
     read_serial_turn json_loads raw = Turn [] (Some AttributeError)).
Proof.
  intros Hline. split.
  - intros e He Hne. rewrite (read_serial_turn_line json_loads raw Hline).
    unfold decode, classify. rewrite He. simpl.
    destruct e; try reflexivity. contradiction Hne. reflexivity.
  - intros v Hv Hno. rewrite (read_serial_turn_line json_loads raw Hline).
    rewrite (decode_non_object json_loads _ v Hv Hno). reflexivity.
Qed.
End ReadLoopMore.

Lemma missing_key_is_opaque_witness :
  let raw := JsonRef.quoted " {'mq':1,'soil':2} " in
  read_serial_turn JsonRef.loads raw =
    Turn [Broadcast "serial_line" (VDict {["line" := VStr (strip raw)]})] None.
Proof.
  intros raw.
  assert (Hline : strip raw ≠ "") by discriminate.
  assert (Hparse : JsonRef.loads (strip raw)
                   = Ok (VDict (<["mq" := VInt 1]> {["soil" := VInt 2]})))
    by (vm_compute; reflexivity).
  assert (Hk : "temp" ∈ expected)
    by (apply (bool_decide_unpack _); vm_compute; exact I).
  assert (Hm : (<["mq" := VInt 1]> {["soil" := VInt 2]} : gmap string value)
                 !! "temp" = None) by reflexivity.
  exact (missing_key_is_opaque JsonRef.loads raw _ "temp" Hline Hparse Hk Hm).
Defined.

Lemma turn_effect_inv_witness :
  let e := Broadcast "sensor_update" (VDict scenario_data) in
  e ∈ effects (read_serial_turn JsonRef.loads scenario_line) ∧
  ((∃ m, e = Broadcast "sensor_update" (VDict m) ∧
         JsonRef.loads (strip scenario_line) = Ok (VDict m) ∧
         expected ⊆ dom m) ∨
   (e = Broadcast "serial_line" (VDict {["line" := VStr (strip scenario_line)]}) ∧
    (JsonRef.loads (strip scenario_line) = Raise JSONDecodeError ∨
     ∃ m, JsonRef.loads (strip scenario_line) = Ok (VDict m) ∧
          ¬ expected ⊆ dom m))).
Proof.
  intros e.
  assert (Hin : e ∈ effects (read_serial_turn JsonRef.loads scenario_line))
    by (vm_compute; left).
  split; [exact Hin |].
  exact (turn_effect_inv JsonRef.loads scenario_line e Hin).
Defined.

Lemma read_serial_thread_bound_witness :
  strip "   " = "" ∧
  read_serial_turn JsonRef.loads "   " = idle ∧
  (length (read_serial_thread JsonRef.loads [""; "   "; "hello"; "5"])
     ≤ length (filter (λ raw, strip raw ≠ "") [""; "   "; "hello"; "5"]))%nat.
Proof.
  destruct (read_serial_thread_bound JsonRef.loads [""; "   "; "hello"; "5"])
    as (_ & Hblank & Hbound).
  split; [reflexivity |]. split; [exact (Hblank "   " eq_refl) | exact Hbound].
Defined.

Lemma serial_line_is_trimmed_witness :
  Broadcast "serial_line" (VDict {["line" := VStr "hello world"]})
    ∈ effects (read_serial_turn JsonRef.loads " hello world ") ∧
  "hello world" = strip " hello world " ∧ "hello world" ≠ "" ∧
  strip "hello world" = "hello world".
Proof.
  assert (Hin : Broadcast "serial_line" (VDict {["line" := VStr "hello world"]})
                  ∈ effects (read_serial_turn JsonRef.loads " hello world "))
    by (vm_compute; left).
  split; [exact Hin |].
  exact (serial_line_is_trimmed JsonRef.loads " hello world " "hello world" Hin).
Defined.

Lemma other_failures_emit_nothing_witness :
  read_serial_turn (λ _, Raise RecursionError) "[[[[" = Turn [] (Some RecursionError) ∧
  read_serial_turn JsonRef.loads "5" = Turn [] (Some AttributeError).
Proof.
  split.
  - assert (Hline : strip "[[[[" ≠ "") by discriminate.
    apply (proj1 (other_failures_emit_nothing (λ _, Raise RecursionError)
                    "[[[[" Hline) RecursionError eq_refl).
    discriminate.
  - assert (Hline : strip "5" ≠ "") by discriminate.
    apply (proj2 (other_failures_emit_nothing JsonRef.loads "5" Hline)
             (VInt 5) eq_refl).
    intros m. discriminate.
Defined.

(** ** The command path, further *)

Section CommandMore.
Variable int_of_str : string → result Z.

Lemma writes_dispatch ser r :
  writes (dispatch int_of_str ser r) =
    match ser with
    | Some s =>
        [(encode (intent_of int_of_str r), s (encode (intent_of int_of_str r)))]
    | None => []
    end.
Proof.
  destruct ser as [s |].
  - rewrite dispatch_connected. cbv zeta. destruct (s _); reflexivity.
  - rewrite dispatch_disconnected. reflexivity.
Qed.

Lemma replies_dispatch ser r :
  ∃ p : gmap string value,
    replies (dispatch int_of_str ser r) = [(ack_event r, VDict p)] ∧
    (p !! "error" = None ↔
     ∃ s, ser = Some s ∧ s (encode (intent_of int_of_str r)) = Written).
Proof.
  destruct ser as [s |].
  - rewrite dispatch_connected. cbv zeta.
    destruct (s _) as [| msg] eqn:Hw.
    + destruct r; eexists; (split; [reflexivity |]);
        (split; [intros _; exists s; split; [reflexivity | exact Hw]
                | intros _; reflexivity]).
    + eexists. split; [reflexivity |]. rewrite lookup_singleton_eq. split.
      * discriminate.
      * intros (s' & E & Hw'). injection E as <-. congruence.
  - rewrite dispatch_disconnected. eexists. split; [reflexivity |]. split.
    + intros H. vm_compute in H. discriminate H.
    + intros (s & E & _). discriminate E.
Qed.

(** X6. Whatever the payload, nothing is ever written to the device but
    one of the five lines of the protocol. *)
Theorem only_protocol_lines_written ser r d res :
  (d, res) ∈ writes (dispatch int_of_str ser r) →
  d ∈ ["RELAY:0" +:+ LF; "RELAY:1" +:+ LF; "AUTO:0" +:+ LF; "AUTO:1" +:+ LF;
       "MANUAL:0" +:+ LF].
Proof.
  rewrite writes_dispatch. destruct ser as [s |]; [| intros H; inversion H].
  intros H. apply list_elem_of_singleton in H. injection H as -> _.
  destruct r as [data | data |]; simpl;
    try destruct (truth (coerce_state int_of_str data));
    repeat (first [left | right]).
Qed.

(** X7. A request is answered by exactly one reply, on its own event;
    the device is written to once when there is a port and not at all
    otherwise; nothing is broadcast to the other clients; and the reply
    is an acknowledgement, without [error], exactly when there is a port
    and the write succeeded. *)
Theorem one_reply_per_request ser r :
  ∃ p : gmap string value,
    replies (dispatch int_of_str ser r) = [(ack_event r, VDict p)] ∧
    length (writes (dispatch int_of_str ser r))
      = match ser with Some _ => 1%nat | None => 0%nat end ∧
    (∀ ev v, Broadcast ev v ∉ dispatch int_of_str ser r) ∧
    (p !! "error" = None ↔
     ∃ s, ser = Some s ∧ s (encode (intent_of int_of_str r)) = Written).
Proof.
  destruct (replies_dispatch ser r) as (p & Hp & Hack).
  exists p. split; [exact Hp |]. split; [| split; [| exact Hack]].
  - rewrite writes_dispatch. destruct ser; reflexivity.
  - intros ev v Hin. destruct ser as [s |].
    + rewrite dispatch_connected in Hin. cbv zeta in Hin.
      destruct (s _); apply elem_of_cons in Hin as [Hin | Hin];
        first [discriminate Hin
              | apply list_elem_of_singleton in Hin; discriminate Hin].
    + rewrite dispatch_disconnected in Hin.
      apply list_elem_of_singleton in Hin. discriminate Hin.
Qed.

(** X8. Of a payload only [state] counts: two payloads with the same
    [state], or both without, are handled alike. *)
Theorem only_state_key_matters ser (m1 m2 : gmap string value) :
  m1 !! "state" = m2 !! "state" →
  handle_toggle int_of_str ser (VDict m1) = handle_toggle int_of_str ser (VDict m2) ∧
  handle_set_auto int_of_str ser (VDict m1)
    = handle_set_auto int_of_str ser (VDict m2).
Proof.
  intros H.
  assert (E : coerce_state int_of_str (VDict m1) = coerce_state int_of_str (VDict m2)).
  { unfold coerce_state. simpl. rewrite H. reflexivity. }
  unfold handle_toggle, handle_set_auto. rewrite E. split; reflexivity.
Qed.

(** X9. A boolean state switches as it says. A float state is cut to
    its integer part first, so it switches on exactly when it is at
    least 1 in magnitude; an infinite or NaN state switches off. *)
Theorem bool_and_float_states (m : gmap string value) :
  (∀ b, m !! "state" = Some (VBool b) →
     intent_of int_of_str (toggle_relay (VDict m)) = SetRelay b ∧
     intent_of int_of_str (set_auto (VDict m)) = SetAuto b) ∧
  (∀ q, m !! "state" = Some (VFloat (Finite q)) →
     (truth (coerce_state int_of_str (VDict m)) = true
      ↔ (q <= -1 ∨ 1 <= q)%Q)) ∧
  (∀ f, m !! "state" = Some (VFloat f) → (∀ q, f ≠ Finite q) →
     coerce_state int_of_str (VDict m) = 0).
Proof.
  repeat apply conj.
  - intros b H.
    assert (E : coerce_state int_of_str (VDict m) = Z.b2z b).
    { unfold coerce_state. simpl. rewrite H. reflexivity. }
    simpl. rewrite E. destruct b; split; reflexivity.
  - intros q H.
    assert (E : coerce_state int_of_str (VDict m) = trunc q).
    { unfold coerce_state. simpl. rewrite H. reflexivity. }
    rewrite E. unfold truth, trunc, Qle. simpl.
    pose proof (Z.quot_small_iff (Qnum q) (Z.pos (Qden q)) ltac:(lia)) as Hq.
    destruct (Z.eqb_spec (Qnum q ÷ Z.pos (Qden q)) 0) as [H0 | H0]; simpl.
    + split; [discriminate |]. apply Hq in H0. lia.
    + split; [| reflexivity]. intros _.
      assert (¬ Z.abs (Qnum q) < Z.abs (Z.pos (Qden q))) by (rewrite <- Hq; exact H0).
      lia.
  - intros f H Hf. unfold coerce_state. simpl. rewrite H. simpl.
    destruct f; [contradiction (Hf q); reflexivity | reflexivity | reflexivity].
Qed.

(** X10. The [would_send] of the answer without a port is, with the
    newline put back, exactly what the same request writes when there is
    a port. *)
Theorem would_send_is_what_is_written (s : port) r :
  ∃ w : string,
    replies (dispatch int_of_str None r) = [(ack_event r, not_connected w)] ∧
    writes (dispatch int_of_str (Some s) r) = [(w +:+ LF, s (w +:+ LF))].
Proof.
  exists (strip (encode (intent_of int_of_str r))).
  rewrite dispatch_disconnected, writes_dispatch, encode_strip.
  split; reflexivity.
Qed.

(** X11. Different commands have different lines, and a line is a body
    without a newline followed by one newline. *)
Theorem encode_injective_framed :
  (∀ i j, encode i = encode j → i = j) ∧
  (∀ i, ∃ body, encode i = body +:+ LF ∧ index 0 LF body = None).
Proof.
  split.
  - intros [[] | [] |] [[] | [] |]; simpl; intros H;
      first [reflexivity | discriminate H].
  - intros i. exists (strip (encode i)). split; [symmetry; apply encode_strip |].
    destruct i as [[] | [] |]; reflexivity.
Qed.
End CommandMore.

Lemma only_protocol_lines_written_witness :
  ("RELAY:1" +:+ LF, Written)
    ∈ writes (dispatch IntRef.int_of_str (Some good_port)
                (toggle_relay (state_payload (-3)))) ∧
  "RELAY:1" +:+ LF
    ∈ ["RELAY:0" +:+ LF; "RELAY:1" +:+ LF; "AUTO:0" +:+ LF; "AUTO:1" +:+ LF;
       "MANUAL:0" +:+ LF].
Proof.
  assert (Hin : ("RELAY:1" +:+ LF, Written)
                  ∈ writes (dispatch IntRef.int_of_str (Some good_port)
                              (toggle_relay (state_payload (-3)))))
    by (vm_compute; left).
  split; [exact Hin |].
  exact (only_protocol_lines_written IntRef.int_of_str (Some good_port)
           (toggle_relay (state_payload (-3))) _ _ Hin).
Defined.

Lemma only_state_key_matters_witness :
  let m1 : gmap string value := <["state" := VInt 1]> {["user" := VStr "ann"]} in
  let m2 : gmap string value := {["state" := VInt 1]} in
  m1 !! "state" = m2 !! "state" ∧
  handle_toggle IntRef.int_of_str None (VDict m1)
    = handle_toggle IntRef.int_of_str None (VDict m2) ∧
  handle_set_auto IntRef.int_of_str None (VDict m1)
    = handle_set_auto IntRef.int_of_str None (VDict m2).
Proof.
  intros m1 m2.
  assert (H : m1 !! "state" = m2 !! "state") by reflexivity.
  split; [exact H |].
  exact (only_state_key_matters IntRef.int_of_str None m1 m2 H).
Defined.

(** ** The simulator and the read loop together *)

Section SimulatorMore.
Variable rng : Type.
Variable randbelow : Z → rng → Z * rng.
Variable random_bits : rng → Z * rng.

Lemma fake_reading_keys g :
  dom (fake_reading rng randbelow random_bits g).1 = expected.
Proof.
  unfold fake_reading.
  destruct (randint rng randbelow 300 700 g) as [mq g1].
  destruct (randint rng randbelow 20 80 g1) as [soil g2].
  destruct (uniform rng random_bits (Finite 22) (Finite 30) g2) as [temp g3].
  destruct (uniform rng random_bits (Finite 35) (Finite 70) g3) as [hum g4].
  cbn [fst].
  generalize (VFloat (Binary64.py_round temp 1)), (VFloat (Binary64.py_round hum 1)).
  intros vt vh. reflexivity.
Qed.

(** X12. Whatever the generator does, a simulated event is shaped like
    a device one: it is a [sensor_update] whose reading has exactly the
    five keys, so a line that parses to the same reading makes the read
    loop emit this very event. *)
Theorem simulated_event_is_telemetry n g e :
  e ∈ fake_sensor_thread rng randbelow random_bits n g →
  ∃ data : gmap string value,
    e = Broadcast "sensor_update" (VDict data) ∧
    dom data = expected ∧
    ∀ (json_loads : string → result value) line,
      json_loads line = Ok (VDict data) → decode json_loads line = Ok e.
Proof.
  revert g. induction n as [| n IH]; intros g; simpl; [intros H; inversion H |].
  pose proof (fake_reading_keys g) as Hk.
  destruct (fake_reading rng randbelow random_bits g) as [data g'].
  cbn [fst] in Hk. intros Hin. apply elem_of_cons in Hin as [-> | Hin].
  - exists data. split; [reflexivity |]. split; [exact Hk |].
    intros json_loads line Hparse.
    rewrite (decode_object json_loads line data Hparse).
    rewrite bool_decide_eq_true_2; [reflexivity |]. rewrite Hk. reflexivity.
  - exact (IH g' Hin).
Qed.
End SimulatorMore.

Lemma simulated_event_is_telemetry_witness :
  ∃ e, fake_sensor_thread Z RngRef.randbelow RngRef.random_bits 2 7 !! 1%nat = Some e ∧
       ∃ data : gmap string value,
         e = Broadcast "sensor_update" (VDict data) ∧
         dom data = expected ∧
         ∀ (json_loads : string → result value) line,
           json_loads line = Ok (VDict data) → decode json_loads line = Ok e.
Proof.
  destruct (fake_sensor_thread Z RngRef.randbelow RngRef.random_bits 2 7 !! 1%nat)
    as [e |] eqn:He; [| exfalso; vm_compute in He; discriminate He].
  exists e. split; [reflexivity |].
  apply (simulated_event_is_telemetry Z RngRef.randbelow RngRef.random_bits 2 7 e).
  apply list_elem_of_lookup. exists 1%nat. exact He.
Defined.

(** ** Opening the serial port *)

Section ConnectFacts.
Variable world : Type.
Variable comports : world → list ListPortInfo.
Variable Serial : string → Z → world → option port * world.
Variable SERIAL_PORT : string.
Variable BAUDRATE : Z.

Lemma try_open_port_spec p m :
  try_open_port world Serial BAUDRATE true p m =
    ((Serial p BAUDRATE m.1).1,
     ((Serial p BAUDRATE m.1).2,
      m.2 ++ [Attempt p BAUDRATE (bool_decide (is_Some (Serial p BAUDRATE m.1).1))])).
Proof. unfold try_open_port. destruct (Serial p BAUDRATE m.1). reflexivity. Qed.

(** What the scan leaves behind: the candidates SERIAL_PORT in order, refused BAUDRATE one
    after the other, up to the first that opens. *)
Lemma scan_spec ports m ser m' :
  scan world Serial SERIAL_PORT BAUDRATE true ports m = (ser, m') →
  match ser with
  | None => m'.2 = m.2 ++ (refused BAUDRATE <$> candidates SERIAL_PORT ports)
  | Some s =>
      ∃ failed p rest w,
        candidates SERIAL_PORT ports = failed ++ p :: rest ∧
        m'.2 = m.2 ++ (refused BAUDRATE <$> failed) ++ [success BAUDRATE p] ∧
        (Serial p BAUDRATE w).1 = Some s
  end.
Proof.
  revert m. induction ports as [| info ports IH]; intros m; cbn [scan].
  - intros [= <- <-]. simpl. rewrite app_nil_r. reflexivity.
  - unfold candidates. rewrite fmap_cons, filter_cons.
    destruct (String.eqb_spec (device info) SERIAL_PORT) as [E | NE].
    + rewrite decide_False by (intros H; apply H; exact E). apply IH.
    + rewrite decide_True by exact NE.
      rewrite try_open_port_spec.
      destruct (Serial (device info) BAUDRATE m.1) as [[s |] w] eqn:Hs; simpl.
      * intros [= <- <-]. exists [], (device info), (candidates SERIAL_PORT ports), m.1.
        split; [reflexivity |]. split; [reflexivity |]. rewrite Hs. reflexivity.
      * intros Hscan. specialize (IH _ Hscan). destruct ser as [s |].
        -- destruct IH as (failed & p & rest & w0 & Hc & Hlog & Hopen).
           exists (device info :: failed), p, rest, w0.
           split; [fold (candidates SERIAL_PORT ports); rewrite Hc; reflexivity |].
           split; [| exact Hopen].
           rewrite Hlog. simpl. rewrite <- !app_assoc. reflexivity.
        -- rewrite IH. simpl. rewrite <- app_assoc. reflexivity.
Qed.

(** What a call of [init_serial_connection] adds to the log when it
    starts without a connection. *)
Lemma init_log available m ser m' :
  init_serial_connection world comports Serial SERIAL_PORT BAUDRATE available
    None m = (ser, m') →
  ∃ ext : list attempt,
    m'.2 = m.2 ++ ext ∧
    Forall (λ a, baud a = BAUDRATE) ext ∧
    match ser with
    | None => Forall (λ a, opened a = false) ext
    | Some s =>
        ∃ failed a, ext = failed ++ [a] ∧
                    Forall (λ a, opened a = false) failed ∧ opened a = true
    end.
Proof.
  assert (Hrefused : ∀ l, Forall (λ a, opened a = false) (refused BAUDRATE <$> l)).
  { intros l. apply Forall_fmap, Forall_true. reflexivity. }
  assert (Hbaud : ∀ l, Forall (λ a, baud a = BAUDRATE) (refused BAUDRATE <$> l)).
  { intros l. apply Forall_fmap, Forall_true. reflexivity. }
  assert (Hscan : ∀ ports m0 ser0 m1,
            scan world Serial SERIAL_PORT BAUDRATE true ports m0 = (ser0, m1) →
            ∃ ext, m1.2 = m0.2 ++ ext ∧
                   Forall (λ a, baud a = BAUDRATE) ext ∧
                   match ser0 with
                   | None => Forall (λ a, opened a = false) ext
                   | Some s =>
                       ∃ failed a, ext = failed ++ [a] ∧
                                   Forall (λ a, opened a = false) failed ∧
                                   opened a = true
                   end).
  { intros ports m0 ser0 m1 H. apply scan_spec in H. destruct ser0 as [s |].
    - destruct H as (failed & p & rest & w & _ & Hlog & _).
      exists ((refused BAUDRATE <$> failed) ++ [success BAUDRATE p]). split; [exact Hlog |].
      split; [apply Forall_app; split; [apply Hbaud | repeat constructor] |].
      exists (refused BAUDRATE <$> failed), (success BAUDRATE p).
      split; [reflexivity |]. split; [apply Hrefused | reflexivity].
    - exists (refused BAUDRATE <$> candidates SERIAL_PORT ports).
      split; [exact H |]. split; [apply Hbaud | apply Hrefused]. }
  unfold init_serial_connection. destruct available; cbn [negb].
  2:{ intros [= <- <-]. exists []. rewrite app_nil_r. repeat constructor. }
  destruct SERIAL_PORT as [| c pref] eqn:Hpref.
  - intros H. exact (Hscan _ _ _ _ H).
  - rewrite try_open_port_spec.
    destruct (Serial (String c pref) BAUDRATE m.1) as [[s |] w] eqn:Hs; simpl.
    + intros [= <- <-]. exists [Attempt (String c pref) BAUDRATE true].
      split; [reflexivity |]. split; [repeat constructor |].
      exists [], (Attempt (String c pref) BAUDRATE true). repeat constructor.
    + intros H. destruct (Hscan _ _ _ _ H) as (ext & Hlog & Hb & Hres).
      exists (Attempt (String c pref) BAUDRATE false :: ext).
      split; [rewrite Hlog; simpl; rewrite <- app_assoc; reflexivity |].
      split; [constructor; [reflexivity | exact Hb] |].
      destruct ser as [s |].
      * destruct Hres as (failed & a & -> & Hf & Ha).
        exists (Attempt (String c pref) BAUDRATE false :: failed), a.
        split; [reflexivity |]. split; [constructor; [reflexivity | exact Hf] | exact Ha].
      * constructor; [reflexivity | exact Hres].
Qed.

Lemma init_with_preferred ser m :
  SERIAL_PORT ≠ "" →
  init_serial_connection world comports Serial SERIAL_PORT BAUDRATE true ser m =
    let '(ser, m) := try_open_port world Serial BAUDRATE true SERIAL_PORT m in
    match ser with
    | None => scan world Serial SERIAL_PORT BAUDRATE true (comports m.1) m
    | Some _ => (ser, m)
    end.
Proof.
  intros Hne. unfold init_serial_connection. cbn [negb].
  destruct SERIAL_PORT; [contradiction Hne |]; reflexivity.
Qed.

(** X13. When the preferred port opens it becomes the connection,
    whatever [ser] was before, and no other port is touched. *)
Theorem preferred_port_first ser m s w :
  SERIAL_PORT ≠ "" →
  Serial SERIAL_PORT BAUDRATE m.1 = (Some s, w) →
  init_serial_connection world comports Serial SERIAL_PORT BAUDRATE true ser m
    = (Some s, (w, m.2 ++ [success BAUDRATE SERIAL_PORT])).
Proof.
  intros Hne Hopen. rewrite (init_with_preferred ser m Hne).
  rewrite try_open_port_spec, Hopen. reflexivity.
Qed.

(** X14. When the preferred port does not open, the other ports of the
    enumeration are tried in its order, the preferred one never again,
    each at the configured speed, and the first that opens becomes the
    connection and ends the search; there is no connection only when
    every one of them was refused BAUDRATE. *)
Theorem fallback_scan ser m w ser' m' :
  SERIAL_PORT ≠ "" →
  Serial SERIAL_PORT BAUDRATE m.1 = (None, w) →
  init_serial_connection world comports Serial SERIAL_PORT BAUDRATE true ser m
    = (ser', m') →
  match ser' with
  | None =>
      m'.2 = m.2 ++ refused BAUDRATE SERIAL_PORT :: (refused BAUDRATE <$> candidates SERIAL_PORT (comports w))
  | Some s =>
      ∃ failed p rest w0,
        candidates SERIAL_PORT (comports w) = failed ++ p :: rest ∧
        m'.2 = m.2 ++ refused BAUDRATE SERIAL_PORT :: (refused BAUDRATE <$> failed) ++ [success BAUDRATE p] ∧
        (Serial p BAUDRATE w0).1 = Some s ∧
        p ≠ SERIAL_PORT ∧ SERIAL_PORT ∉ failed
  end.
Proof.
  intros Hne Hclosed. rewrite (init_with_preferred ser m Hne).
  rewrite try_open_port_spec, Hclosed. simpl. intros Hscan.
  apply scan_spec in Hscan. simpl in Hscan. destruct ser' as [s |].
  - destruct Hscan as (failed & p & rest & w0 & Hc & Hlog & Hopen).
    exists failed, p, rest, w0. split; [exact Hc |].
    split; [rewrite Hlog, <- app_assoc; reflexivity |]. split; [exact Hopen |].
    assert (Hall : ∀ d, d ∈ candidates SERIAL_PORT (comports w) → d ≠ SERIAL_PORT).
    { intros d Hd. unfold candidates in Hd.
      apply list_elem_of_filter in Hd as [Hd _]. exact Hd. }
    split.
    + apply Hall. rewrite Hc. apply elem_of_app. right. left.
    + intros Hin. apply (Hall SERIAL_PORT); [| reflexivity].
      rewrite Hc. apply elem_of_app. left. exact Hin.
  - rewrite Hscan, <- app_assoc. reflexivity.
Qed.

(** X15. Starting without a connection, [init_serial_connection] opens
    at most one port: every call it makes uses the configured speed, all
    but the last are refused BAUDRATE, and the last is the connection when there
    is one. *)
Theorem at_most_one_port_opened available m ser m' :
  init_serial_connection world comports Serial SERIAL_PORT BAUDRATE available
    None m = (ser, m') →
  ∃ ext : list attempt,
    m'.2 = m.2 ++ ext ∧
    Forall (λ a, baud a = BAUDRATE) ext ∧
    match ser with
    | None => Forall (λ a, opened a = false) ext
    | Some s =>
        ∃ failed a, ext = failed ++ [a] ∧
                    Forall (λ a, opened a = false) failed ∧ opened a = true
    end.
Proof. apply init_log. Qed.

(** X16. [start_background_threads] starts the reader on the port that
    was opened, and the simulator exactly when no port was opened; then
    no call of [serial.Serial] it made succeeded, and without pyserial
    it made none. *)
Theorem startup_mode available m t ser m' :
  start_background_threads world comports Serial SERIAL_PORT BAUDRATE available
    None m = (t, ser, m') →
  (∀ s, t = ReadSerial s ↔ ser = Some s) ∧
  (t = FakeSensor ↔ ser = None) ∧
  (t = FakeSensor →
     ∃ ext, m'.2 = m.2 ++ ext ∧ Forall (λ a, opened a = false) ext) ∧
  (available = false → t = FakeSensor ∧ m' = m).
Proof.
  unfold start_background_threads.
  destruct (init_serial_connection world comports Serial SERIAL_PORT BAUDRATE
              available None m) as [ser0 m0] eqn:Hinit.
  pose proof (init_log available m ser0 m0 Hinit) as (ext & Hlog & _ & Hres).
  destruct ser0 as [s0 |]; intros [= <- <- <-].
  - split; [| split; [| split]].
    + intros s. split; intros [= ->]; reflexivity.
    + split; discriminate.
    + discriminate.
    + intros ->. unfold init_serial_connection in Hinit. cbn [negb] in Hinit.
      discriminate Hinit.
  - split; [| split; [| split]].
    + intros s. split; discriminate.
    + split; reflexivity.
    + intros _. exists ext. split; [exact Hlog | exact Hres].
    + intros ->. unfold init_serial_connection in Hinit. cbn [negb] in Hinit.
      injection Hinit as <-. split; reflexivity.
Qed.
End ConnectFacts.

(** *** Port opening on the reference machine *)

Lemma preferred_port_first_witness :
  let w := ["COM5"] in
  Config.SERIAL_PORT ≠ "" ∧
  PortsRef.Serial Config.SERIAL_PORT Config.BAUDRATE w = (Some good_port, w) ∧
  init_serial_connection (list string) PortsRef.comports PortsRef.Serial
    Config.SERIAL_PORT Config.BAUDRATE true None (w, [])
    = (Some good_port, (w, [success Config.BAUDRATE Config.SERIAL_PORT])).
Proof.
  intros w.
  assert (Hne : Config.SERIAL_PORT ≠ "") by discriminate.
  assert (Hopen : PortsRef.Serial Config.SERIAL_PORT Config.BAUDRATE w
                  = (Some good_port, w)) by reflexivity.
  split; [exact Hne |]. split; [exact Hopen |].
  exact (preferred_port_first (list string) PortsRef.comports PortsRef.Serial
           Config.SERIAL_PORT Config.BAUDRATE None (w, []) good_port w Hne Hopen).
Defined.

Lemma fallback_scan_witness :
  let w := ["COM7"; "COM9"] in
  let m' := (w, [refused Config.BAUDRATE "COM5"; refused Config.BAUDRATE "COM1";
                 success Config.BAUDRATE "COM7"]) in
  Config.SERIAL_PORT ≠ "" ∧
  PortsRef.Serial Config.SERIAL_PORT Config.BAUDRATE w = (None, w) ∧
  init_serial_connection (list string) PortsRef.comports PortsRef.Serial
    Config.SERIAL_PORT Config.BAUDRATE true None (w, []) = (Some good_port, m') ∧
  ∃ failed p rest w0,
    candidates Config.SERIAL_PORT (PortsRef.comports w) = failed ++ p :: rest ∧
    m'.2 = [] ++ refused Config.BAUDRATE Config.SERIAL_PORT
                 :: (refused Config.BAUDRATE <$> failed)
                 ++ [success Config.BAUDRATE p] ∧
    (PortsRef.Serial p Config.BAUDRATE w0).1 = Some good_port ∧
    p ≠ Config.SERIAL_PORT ∧ Config.SERIAL_PORT ∉ failed.
Proof.
  intros w m'.
  assert (Hne : Config.SERIAL_PORT ≠ "") by discriminate.
  assert (Hclosed : PortsRef.Serial Config.SERIAL_PORT Config.BAUDRATE w
                    = (None, w)) by reflexivity.
  assert (Hinit : init_serial_connection (list string) PortsRef.comports
                    PortsRef.Serial Config.SERIAL_PORT Config.BAUDRATE true
                    None (w, []) = (Some good_port, m')) by reflexivity.
  split; [exact Hne |]. split; [exact Hclosed |]. split; [exact Hinit |].
  exact (fallback_scan (list string) PortsRef.comports PortsRef.Serial
           Config.SERIAL_PORT Config.BAUDRATE None (w, []) w
           (Some good_port) m' Hne Hclosed Hinit).
Defined.

Lemma at_most_one_port_opened_witness :
  let w := ["COM7"; "COM9"] in
  let m' := (w, [refused Config.BAUDRATE "COM5"; refused Config.BAUDRATE "COM1";
                 success Config.BAUDRATE "COM7"]) in
  init_serial_connection (list string) PortsRef.comports PortsRef.Serial
    Config.SERIAL_PORT Config.BAUDRATE true None (w, []) = (Some good_port, m') ∧
  ∃ ext : list attempt,
    m'.2 = [] ++ ext ∧
    Forall (λ a, baud a = Config.BAUDRATE) ext ∧
    ∃ failed a, ext = failed ++ [a] ∧
                Forall (λ a, opened a = false) failed ∧ opened a = true.
Proof.
  intros w m'.
  assert (Hinit : init_serial_connection (list string) PortsRef.comports
                    PortsRef.Serial Config.SERIAL_PORT Config.BAUDRATE true
                    None (w, []) = (Some good_port, m')) by reflexivity.
  split; [exact Hinit |].
  exact (at_most_one_port_opened (list string) PortsRef.comports PortsRef.Serial
           Config.SERIAL_PORT Config.BAUDRATE true (w, []) (Some good_port) m'
           Hinit).
Defined.

Lemma startup_mode_witness :
  let m' : machine (list string) :=
    ([], [refused Config.BAUDRATE "COM5"; refused Config.BAUDRATE "COM1"]) in
  start_background_threads (list string) PortsRef.comports PortsRef.Serial
    Config.SERIAL_PORT Config.BAUDRATE true None ([], []) = (FakeSensor, None, m') ∧
  (∀ s, FakeSensor = ReadSerial s ↔ None = Some s) ∧
  (FakeSensor = FakeSensor ↔ @None port = None) ∧
  (FakeSensor = FakeSensor →
     ∃ ext, m'.2 = [] ++ ext ∧ Forall (λ a, opened a = false) ext) ∧
  (true = false → FakeSensor = FakeSensor ∧ m' = ([], [])).
Proof.
  intros m'.
  assert (Hstart : start_background_threads (list string) PortsRef.comports
                     PortsRef.Serial Config.SERIAL_PORT Config.BAUDRATE true
                     None ([], []) = (FakeSensor, None, m')) by reflexivity.
  split; [exact Hstart |].
  exact (startup_mode (list string) PortsRef.comports PortsRef.Serial
           Config.SERIAL_PORT Config.BAUDRATE true ([], []) FakeSensor None m'
           Hstart).
Defined.

(** ** argmax *)

Section ArgmaxFacts.
Import Numpy.

Lemma leb_refl x : isnan x = false → leb x x = true.
Proof.
  destruct x as [q | [] |]; simpl; try reflexivity; try discriminate.
  intros _. apply Qle_bool_iff. apply Qle_refl.
Qed.

Lemma leb_total x y :
  isnan x = false → isnan y = false → leb x y = false → leb y x = true.
Proof.
  destruct x as [p | [] |], y as [q | [] |]; simpl; try reflexivity;
    try discriminate.
  intros _ _ H. apply Qle_bool_iff.
  destruct (Qlt_le_dec q p) as [Hlt | Hle]; [apply Qlt_le_weak, Hlt |].
  apply Qle_bool_iff in Hle. congruence.
Qed.

Lemma leb_trans x y z : leb x y = true → leb y z = true → leb x z = true.
Proof.
  destruct x as [p | [] |], y as [q | [] |], z as [r | [] |]; simpl;
    try reflexivity; try discriminate.
  intros H1 H2. apply Qle_bool_iff in H1, H2. apply Qle_bool_iff.
  eapply Qle_trans; eassumption.
Qed.

(** The loop keeps the first greatest element of what it has passed. *)
Lemma argmax_loop_spec l : ∀ (pre : list float) mp ind,
  Forall (λ x, isnan x = false) l →
  isnan mp = false →
  pre !! ind = Some mp →
  (∀ x, x ∈ pre → leb x mp = true) →
  (∀ j y, (j < ind)%nat → pre !! j = Some y → leb mp y = false) →
  ∃ c, (pre ++ l) !! argmax_loop mp ind (length pre) l = Some c ∧
       (∀ x, x ∈ pre ++ l → leb x c = true) ∧
       (∀ j y, (j < argmax_loop mp ind (length pre) l)%nat →
               (pre ++ l) !! j = Some y → leb c y = false).
Proof.
  induction l as [| x rest IH]; intros pre mp ind Hl Hmp Hind Hmax Hfirst.
  - simpl. rewrite app_nil_r. exists mp. auto.
  - apply Forall_cons in Hl as [Hx Hrest]. cbn [argmax_loop].
    assert (Hlen : (ind < length pre)%nat) by (eapply lookup_lt_Some; exact Hind).
    replace (pre ++ x :: rest) with ((pre ++ [x]) ++ rest)
      by (rewrite <- app_assoc; reflexivity).
    replace (S (length pre)) with (length (pre ++ [x]))
      by (rewrite length_app; simpl; lia).
    destruct (leb x mp) eqn:Hle.
    + apply IH; try assumption.
      * rewrite lookup_app_l by exact Hlen. exact Hind.
      * intros y Hy. apply elem_of_app in Hy as [Hy | Hy]; [apply Hmax, Hy |].
        apply list_elem_of_singleton in Hy. subst y. exact Hle.
      * intros j y Hj Hy. apply (Hfirst j y Hj).
        rewrite lookup_app_l in Hy by lia. exact Hy.
    + rewrite Hx.
      assert (Hmpx : leb mp x = true) by (apply leb_total; assumption).
      apply IH; try assumption.
      * rewrite lookup_app_r by lia. rewrite Nat.sub_diag. reflexivity.
      * intros y Hy. apply elem_of_app in Hy as [Hy | Hy].
        -- eapply leb_trans; [apply Hmax, Hy | exact Hmpx].
        -- apply list_elem_of_singleton in Hy. subst y. apply leb_refl, Hx.
      * intros j y Hj Hy. rewrite lookup_app_l in Hy by exact Hj.
        destruct (leb x y) eqn:Hxy; [| reflexivity].
        assert (leb x mp = true); [| congruence].
        eapply leb_trans; [exact Hxy |]. apply Hmax.
        apply list_elem_of_lookup. exists j. exact Hy.
Qed.

Lemma argmax_spec probs i :
  Forall (λ x, isnan x = false) probs →
  argmax probs = Returns i →
  ∃ c, probs !! i = Some c ∧
       (∀ x, x ∈ probs → leb x c = true) ∧
       (∀ j y, (j < i)%nat → probs !! j = Some y → leb c y = false).
Proof.
  destruct probs as [| x rest]; [discriminate |].
  intros Hall. apply Forall_cons in Hall as [Hx Hrest]. simpl. rewrite Hx.
  intros [= <-].
  apply (argmax_loop_spec rest [x] x 0%nat Hrest Hx eq_refl).
  - intros y Hy. apply list_elem_of_singleton in Hy. subst y. apply leb_refl, Hx.
  - intros j y Hj. lia.
Qed.
End ArgmaxFacts.

(** ** The image classifier *)

Section ClassifierFacts.
Variable processor : Type.
Variable model : Type.
Variable image : Type.
Variable hf_installed : bool.
Variable cuda_is_available : outcome bool.
Variable load_processor : outcome processor.
Variable load_model : outcome model.
Variable to_device : model → string → outcome unit.
Variable id2label : model → gmap Z string.
Variable open_image : FileStorage → outcome image.
Variable run_model :
  processor → model → option string → image → outcome (list float).

(** X17. Loading is all or nothing: without the libraries the three
    globals keep their values; with them, either every step succeeded and
    the three are set, the device being ["cuda"] or ["cpu"], or all three
    are back to [None]. *)
Theorem load_all_or_nothing g :
  let g' := load_hf_model processor model hf_installed cuda_is_available
              load_processor load_model to_device g in
  (hf_installed = false → g' = g) ∧
  (hf_installed = true →
     g' = hf_unset processor model ∨
     ∃ p m dev,
       g' = HF processor model (Some p) (Some m) (Some dev) ∧
       load_processor = Returns p ∧ load_model = Returns m ∧
       (dev = "cuda" ∨ dev = "cpu") ∧ to_device m dev = Returns tt).
Proof.
  cbv zeta. unfold load_hf_model. split; intros ->; cbn [negb]; [reflexivity |].
  destruct cuda_is_available as [cuda | ?]; [| left; reflexivity].
  destruct load_processor as [p | ?]; [| left; reflexivity].
  destruct load_model as [m | ?]; [| left; reflexivity].
  destruct (to_device m _) as [[] | ?] eqn:Hto; [| left; reflexivity].
  right. exists p, m, (if cuda then "cuda" else "cpu").
  repeat split; [destruct cuda; [left | right]; reflexivity | exact Hto].
Qed.

Lemma classify_image_cases p m dev img :
  (∃ e, classify_image processor model image id2label run_model p m dev img
          = Raises e) ∨
  ∃ probs i,
    run_model p m dev img = Returns probs ∧
    Numpy.argmax probs = Returns i ∧
    classify_image processor model image id2label run_model p m dev img =
      Returns
        (Response
           (<["label" := VStr (default (pretty i) (id2label m !! Z.of_nat i))]>
              (<["confidence" := VFloat (default NaN (probs !! i))]>
                 {["all_probs" := VList (VFloat <$> probs)]}))
           200).
Proof.
  unfold classify_image.
  destruct (run_model p m dev img) as [probs | e]; [| left; exists e; reflexivity].
  destruct (Numpy.argmax probs) as [i | e] eqn:Hi; [| left; exists e; reflexivity].
  right. exists probs, i. split; [reflexivity | split; [exact Hi | reflexivity]].
Qed.

(** The paths through [predict], in the order of its tests. *)
Lemma predict_cases g files :
  let r := predict processor model image id2label open_image run_model g files in
  ((hf_model processor model g = None ∨ hf_processor processor model g = None) ∧
   r = error_response "HF model not loaded on server" 500) ∨
  ∃ m p,
    hf_model processor model g = Some m ∧
    hf_processor processor model g = Some p ∧
    ((files !! "file" = None ∧ r = error_response "no file part" 400) ∨
     ∃ f, files !! "file" = Some f ∧
       ((filename f = Some "" ∧ r = error_response "no selected file" 400) ∨
        (filename f ≠ Some "" ∧
         ((∃ e, open_image f = Raises e ∧
                r = error_response ("invalid image: " +:+ e) 400) ∨
          ∃ img, open_image f = Returns img ∧
            ((∃ e, classify_image processor model image id2label run_model
                     p m (hf_device processor model g) img = Raises e ∧
                   r = error_response ("prediction error: " +:+ e) 500) ∨
             classify_image processor model image id2label run_model
               p m (hf_device processor model g) img = Returns r))))).
Proof.
  cbv zeta. unfold predict.
  destruct (hf_model processor model g) as [m |]; [| left; split; [left |]; reflexivity].
  destruct (hf_processor processor model g) as [p |];
    [| left; split; [right |]; reflexivity].
  right. exists m, p. split; [reflexivity |]. split; [reflexivity |].
  destruct (files !! "file") as [f |]; [| left; split; reflexivity].
  right. exists f. split; [reflexivity |].
  destruct (decide (filename f = Some "")) as [Hf | Hf].
  - left. rewrite bool_decide_eq_true_2 by exact Hf. split; [exact Hf | reflexivity].
  - right. rewrite bool_decide_eq_false_2 by exact Hf. split; [exact Hf |].
    destruct (open_image f) as [img | e]; [| left; exists e; split; reflexivity].
    right. exists img. split; [reflexivity |].
    destruct (classify_image _ _ _ _ _ _ _ _ _) as [r | e];
      [right; reflexivity | left; exists e; split; reflexivity].
Qed.


(** X18. While the model or the processor is missing, every request is
    answered with status 500 and ["HF model not loaded on server"],
    whatever was uploaded. *)
Theorem predict_needs_loaded_model g files :
  hf_model processor model g = None ∨ hf_processor processor model g = None →
  predict processor model image id2label open_image run_model g files
    = error_response "HF model not loaded on server" 500.
Proof.
  intros H. unfold predict.
  destruct H as [-> | ->]; [| destruct (hf_model processor model g)]; reflexivity.
Qed.

(** X19. The status is 200, 400 or 500; the body carries [error]
    exactly when the status is not 200, and with status 200 it carries
    exactly [label], [confidence] and [all_probs]. *)
Theorem predict_status g files :
  let r := predict processor model image id2label open_image run_model g files in
  (status r = 200 ∨ status r = 400 ∨ status r = 500) ∧
  (is_Some (body r !! "error") ↔ status r ≠ 200) ∧
  (status r = 200 → dom (body r) = {["label"; "confidence"; "all_probs"]}).
Proof.
  cbv zeta.
  assert (Herr : ∀ msg code r, r = error_response msg code → code ≠ 200 →
            (status r = code) ∧ is_Some (body r !! "error")).
  { intros msg code r -> _. split; [reflexivity |].
    unfold error_response. simpl. rewrite lookup_singleton_eq. eexists; reflexivity. }
  destruct (predict_cases g files)
    as [[_ E] | (m & p & _ & _ & [[_ E] | (f & _ & [[_ E] | [_ [(e & _ & E)
        | (img & _ & [(e & _ & E) | E])]]])])];
    cbv zeta in E;
    try (destruct (Herr _ _ _ E ltac:(discriminate)) as [Hs He]; rewrite Hs;
         split; [auto |]; split;
         [split; [discriminate | intros _; exact He] | discriminate]).
  destruct (classify_image_cases p m (hf_device processor model g) img)
    as [(e & E') | (probs & i & _ & _ & E')]; [congruence |].
  rewrite E' in E. injection E as <-. cbn [status body].
  split; [auto |]. split.
  - split; [intros [v Hv]; vm_compute in Hv; discriminate Hv | congruence].
  - intros _. generalize (VStr (default (pretty i) (id2label m !! Z.of_nat i))),
      (VFloat (default NaN (probs !! i))), (VList (VFloat <$> probs)).
    intros v1 v2 v3. apply (bool_decide_unpack _). vm_compute. exact I.
Qed.

Lemma fmap_VFloat_inj (l1 l2 : list float) :
  VFloat <$> l1 = VFloat <$> l2 → l1 = l2.
Proof.
  revert l2. induction l1 as [| x l1 IH]; intros [| y l2]; simpl;
    try discriminate; [reflexivity |].
  intros [= -> H]. f_equal. apply IH. exact H.
Qed.

(** X20. Status 400 is the answer to a faulty upload and to nothing
    else: the model is loaded and the request has no [file] part, or the
    file has an empty name, or its bytes are no image. *)
Theorem predict_client_errors g files :
  status (predict processor model image id2label open_image run_model g files)
    = 400 ↔
  ∃ m p,
    hf_model processor model g = Some m ∧
    hf_processor processor model g = Some p ∧
    (files !! "file" = None ∨
     ∃ f, files !! "file" = Some f ∧
          (filename f = Some "" ∨ ∃ e, open_image f = Raises e)).
Proof.
  split.
  - intros Hs.
    destruct (predict_cases g files)
      as [[_ E] | (m & p & Hm & Hp & [[Hf E] | (f & Hf & [[Hn E] | [Hn [(e & Ho & E)
          | (img & Ho & [(e & _ & E) | E])]]])])];
      cbv zeta in E.
    + rewrite E in Hs. discriminate Hs.
    + exists m, p. auto.
    + exists m, p. split; [exact Hm |]. split; [exact Hp |]. right. exists f. auto.
    + exists m, p. split; [exact Hm |]. split; [exact Hp |]. right. exists f.
      split; [exact Hf |]. right. exists e. exact Ho.
    + rewrite E in Hs. discriminate Hs.
    + destruct (classify_image_cases p m (hf_device processor model g) img)
        as [(e & E') | (probs & i & _ & _ & E')]; [congruence |].
      rewrite E' in E. injection E as E. rewrite <- E in Hs. discriminate Hs.
  - intros (m & p & Hm & Hp & H). unfold predict. rewrite Hm, Hp.
    destruct H as [-> | (f & -> & [Hn | (e & Ho)])]; [reflexivity | |].
    + rewrite bool_decide_eq_true_2 by exact Hn. reflexivity.
    + destruct (bool_decide (filename f = Some "")); [reflexivity |].
      rewrite Ho. reflexivity.
Qed.


(** X22. In an answer with status 200 whose probabilities hold no NaN,
    [confidence] is the greatest of them and [label] names the first
    index that holds it: the entry of [id2label] at that index or, when
    there is none, the index in decimal. *)
Theorem confidence_is_maximum g files probs :
  let r := predict processor model image id2label open_image run_model g files in
  status r = 200 →
  body r !! "all_probs" = Some (VList (VFloat <$> probs)) →
  Forall (λ x, Numpy.isnan x = false) probs →
  ∃ m i c,
    hf_model processor model g = Some m ∧
    probs !! i = Some c ∧
    body r !! "confidence" = Some (VFloat c) ∧
    body r !! "label"
      = Some (VStr (default (pretty i) (id2label m !! Z.of_nat i))) ∧
    (∀ x, x ∈ probs → Numpy.leb x c = true) ∧
    (∀ j y, (j < i)%nat → probs !! j = Some y → Numpy.leb c y = false).
Proof.
  cbv zeta. intros Hs Hall Hnan.
  destruct (predict_cases g files)
    as [[_ E] | (m & p & Hm & Hp & [[Hf E] | (f & Hf & [[Hn E] | [Hn [(e & Ho & E)
        | (img & Ho & [(e & _ & E) | E])]]])])];
    cbv zeta in E; try (rewrite E in Hs; discriminate Hs).
  destruct (classify_image_cases p m (hf_device processor model g) img)
    as [(e & E') | (probs' & i & Hrun & Hi & E')]; [congruence |].
  rewrite E' in E. injection E as E. rewrite <- E in Hall |- *.
  cbn [body] in Hall |- *.
  assert (Hp' : probs' = probs).
  { assert (Hl : (<["label" := VStr (default (pretty i) (id2label m !! Z.of_nat i))]>
                    (<["confidence" := VFloat (default NaN (probs' !! i))]>
                       {["all_probs" := VList (VFloat <$> probs')]})
                  : gmap string value) !! "all_probs"
                 = Some (VList (VFloat <$> probs'))) by reflexivity.
    rewrite Hl in Hall. injection Hall as Hall. apply fmap_VFloat_inj, Hall. }
  subst probs'.
  destruct (argmax_spec probs i Hnan Hi) as (c & Hc & Hmax & Hfirst).
  exists m, i, c. rewrite Hc. cbn [default].
  split; [exact Hm |]. split; [reflexivity |].
  split; [reflexivity |]. split; [reflexivity |]. split; [exact Hmax | exact Hfirst].
Qed.

(** X23. After the loading at start-up, which begins with the three
    globals unset, the endpoint answers ["HF model not loaded on server"]
    exactly when the loading did not complete. *)
Theorem not_loaded_iff_load_failed files :
  let g := load_hf_model processor model hf_installed cuda_is_available
             load_processor load_model to_device (hf_unset processor model) in
  predict processor model image id2label open_image run_model g files
    = error_response "HF model not loaded on server" 500 ↔
  g = hf_unset processor model.
Proof.
  cbv zeta. split.
  - intros Hr.
    pose proof (load_all_or_nothing (hf_unset processor model)) as [Hno Hyes].
    cbv zeta in Hno, Hyes.
    destruct hf_installed; [| apply Hno; reflexivity].
    destruct (Hyes eq_refl) as [E | (p & m & dev & E & _)]; [exact E |].
    exfalso. rewrite E in Hr.
    assert (Herr : body (predict processor model image id2label open_image
                           run_model
                           (HF processor model (Some p) (Some m) (Some dev)) files)
                     !! "error" = Some (VStr "HF model not loaded on server")).
    { rewrite Hr. reflexivity. }
    destruct (predict_cases (HF processor model (Some p) (Some m) (Some dev)) files)
      as [[[H | H] _] | (m' & p' & _ & _ & [[_ E'] | (f & _ & [[_ E'] | [_ [(e & _ & E')
          | (img & _ & [(e & _ & E') | E'])]]])])];
      try discriminate H; cbv zeta in E'.
    + rewrite E' in Herr. discriminate Herr.
    + rewrite E' in Herr. discriminate Herr.
    + rewrite E' in Herr. discriminate Herr.
    + rewrite E' in Herr. discriminate Herr.
    + destruct (classify_image_cases p' m' (Some dev) img)
        as [(e & E'') | (probs & i & _ & _ & E'')]; [cbn in E'; congruence |].
      cbn [hf_device] in E'. rewrite E'' in E'. injection E' as E'.
      rewrite <- E' in Herr. vm_compute in Herr. discriminate Herr.
  - intros ->. reflexivity.
Qed.
End ClassifierFacts.

(** *** The endpoint on the reference classifier *)

Lemma predict_needs_loaded_model_witness :
  (hf_model unit unit (hf_unset unit unit) = None ∨
   hf_processor unit unit (hf_unset unit unit) = None) ∧
  predict unit unit string ClassifierRef.id2label ClassifierRef.open_image
    ClassifierRef.run_model (hf_unset unit unit) ClassifierRef.upload
    = error_response "HF model not loaded on server" 500.
Proof.
  assert (H : hf_model unit unit (hf_unset unit unit) = None ∨
              hf_processor unit unit (hf_unset unit unit) = None)
    by (left; reflexivity).
  split; [exact H |].
  exact (predict_needs_loaded_model unit unit string ClassifierRef.id2label
           ClassifierRef.open_image ClassifierRef.run_model
           (hf_unset unit unit) ClassifierRef.upload H).
Defined.

Lemma confidence_is_maximum_witness :
  let r := predict unit unit string ClassifierRef.id2label
             ClassifierRef.open_image ClassifierRef.run_model
             ClassifierRef.loaded ClassifierRef.upload in
  status r = 200 ∧
  body r !! "all_probs" = Some (VList (VFloat <$> ClassifierRef.probs)) ∧
  Forall (λ x, Numpy.isnan x = false) ClassifierRef.probs ∧
  ∃ m i c,
    hf_model unit unit ClassifierRef.loaded = Some m ∧
    ClassifierRef.probs !! i = Some c ∧
    body r !! "confidence" = Some (VFloat c) ∧
    body r !! "label"
      = Some (VStr (default (pretty i) (ClassifierRef.id2label m !! Z.of_nat i))) ∧
    (∀ x, x ∈ ClassifierRef.probs → Numpy.leb x c = true) ∧
    (∀ j y, (j < i)%nat → ClassifierRef.probs !! j = Some y →
            Numpy.leb c y = false).
Proof.
  intros r.
  assert (Hs : status r = 200) by reflexivity.
  assert (Hp : body r !! "all_probs"
               = Some (VList (VFloat <$> ClassifierRef.probs))) by reflexivity.
  assert (Hn : Forall (λ x, Numpy.isnan x = false) ClassifierRef.probs)
    by (repeat constructor).
  split; [exact Hs |]. split; [exact Hp |]. split; [exact Hn |].
  exact (confidence_is_maximum unit unit string ClassifierRef.id2label
           ClassifierRef.open_image ClassifierRef.run_model
           ClassifierRef.loaded ClassifierRef.upload ClassifierRef.probs
           Hs Hp Hn).
Defined.

(** On the reference classifier the answer is the second label with
    confidence 0.75. *)
Example reference_prediction :
  let r := predict unit unit string ClassifierRef.id2label
             ClassifierRef.open_image ClassifierRef.run_model
             ClassifierRef.loaded ClassifierRef.upload in
  body r !! "label" = Some (VStr "leaf rust") ∧
  body r !! "confidence" = Some (VFloat (Finite (3 # 4))) ∧
  status r = 200.
Proof. repeat split. Qed.
